(** * github-cms-sync: a shallow embedding of the sync pipeline

    The development follows the packages of the repository:
    [mapper] (entity filter), [syncer] (detail collector), [enricher]
    (batch enrichment with retry), [heuristic] (ranking and selection),
    [contentful] (remote store client), [cmd] (audit log recorder) and
    [config] (environment loading).

    Go values are modelled as follows: [string] is [String.string] (a byte
    string), [int] is [Z], [time.Time] is the instant as a [Z], a slice is a
    [list], [map[string]interface{}] at the top of an entry is a
    [gmap string value], and an [error] is its text. *)

From Stdlib Require Import ZArith Ascii String List Permutation Sorted Lia Bool.
From Stdlib Require Import DecimalString.
From Stdlib Require DecimalZ.
From stdpp Require Import base tactics option list strings gmap fin_maps.
Import ListNotations.

(** ** Go standard-library helpers *)

Module GoStrings.

(** [strings.HasPrefix s p]. *)
Fixpoint HasPrefix (s p : string) {struct p} : bool :=
  match p, s with
  | EmptyString, _ => true
  | String c p', String d s' => Ascii.eqb c d && HasPrefix s' p'
  | String _ _, EmptyString => false
  end.

(** [strings.Contains s sub]: [sub] occurs somewhere in [s]. *)
Fixpoint Contains (s sub : string) : bool :=
  HasPrefix s sub ||
  match s with
  | EmptyString => false
  | String _ s' => Contains s' sub
  end.

(** [fmt.Sprintf("%d", n)]. *)
Definition itoa (n : Z) : string := NilZero.string_of_int (Z.to_int n).

(** ASCII lowering, the behaviour of [strings.ToLower] on ASCII input. *)
Definition lowerAscii (c : ascii) : ascii :=
  let n := nat_of_ascii c in
  if (Nat.leb 65 n && Nat.leb n 90)%bool then ascii_of_nat (n + 32)%nat else c.

Fixpoint asciiToLower (s : string) : string :=
  match s with
  | EmptyString => EmptyString
  | String c s' => String (lowerAscii c) (asciiToLower s')
  end.

End GoStrings.

(** ** The upstream repository record (go-service-kit/github.Repo) *)

Module Github.

Record Repo := mkRepo {
  Name : string;
  HTMLURL : string;
  Homepage : option string;
  Size : Z;
  PushedAt : Z;
  Fork : bool;
  Archived : bool
}.

End Github.

(** ** sort.Slice

    [sort.Slice] is not stable and its algorithm is not part of its
    contract.  What the callers rely on is the documented contract: the
    result is a rearrangement of the input, and for a [less] that is a
    strict weak ordering no later element is [less] than an earlier one. *)

Definition strict_weak {A} (less : A -> A -> bool) : Prop :=
  (forall a, less a a = false) /\
  (forall a b c, less a b = true -> less b c = true -> less a c = true) /\
  (forall a b c, less a b = false -> less b c = false -> less a c = false).

Class SliceSorter := {
  sortSlice : forall A : Type, (A -> A -> bool) -> list A -> list A;
  sortSlice_perm : forall A (less : A -> A -> bool) l,
      Permutation (sortSlice A less l) l;
  sortSlice_sorted : forall A (less : A -> A -> bool) l,
      strict_weak less ->
      StronglySorted (fun a b => less b a = false) (sortSlice A less l)
}.
Arguments sortSlice {_ A} less l.

(** Insertion sort, one implementation of the contract. *)
Section InsertionSort.
Context {A : Type} (less : A -> A -> bool).

Fixpoint insertBy (x : A) (l : list A) : list A :=
  match l with
  | [] => [x]
  | y :: l' => if less y x then y :: insertBy x l' else x :: l
  end.

Definition insertionSort (l : list A) : list A :=
  fold_right insertBy [] l.

End InsertionSort.

(** Go's [error] is modelled by its text; [nil] is [None]. *)
Definition error := string.

(** ** package mapper *)

Module Mapper.
Import Github.

Record RawProject := mkRawProject {
  Name : string;
  Slug : string;
  GitHubURL : string;
  LiveURL : string;
  Languages : list string;
  ReadmeRaw : string;
  RepoSize : Z;
  PushedAt : Z
}.

Section WithLibraries.
(** [strings.ToLower] *)
Variable ToLower : string -> string.
Context {sorter : SliceSorter}.

(** [sortedLanguages]: the map is given as the list of its entries in the
    order in which this run of [range] visits them. *)
Definition sortedLanguages (languages : list (string * Z)) : list string :=
  let langs := fold_left (fun langs nb => langs ++ [nb]) languages [] in
  let langs := sortSlice (fun i j : string * Z => (snd j <? snd i)%Z) langs in
  map fst langs.

Definition ToRawProject (repo : Repo) (languages : list (string * Z))
    (readme : string) : RawProject :=
  let liveURL := match Homepage repo with Some h => h | None => ""%string end in
  {| Name := Github.Name repo;
     Slug := Github.Name repo;
     GitHubURL := HTMLURL repo;
     LiveURL := liveURL;
     Languages := sortedLanguages languages;
     ReadmeRaw := readme;
     RepoSize := Size repo;
     PushedAt := Github.PushedAt repo |}.

(** One iteration of the loop of [FilterRepos]. *)
Definition filterStep (profileRepo : string) (filtered : list Repo) (r : Repo)
    : list Repo :=
  if Fork r || Archived r then filtered
  else if String.eqb (ToLower (Github.Name r)) profileRepo then filtered
  else filtered ++ [r].

Definition FilterRepos (repos : list Repo) (username : string) : list Repo :=
  let profileRepo := ToLower username in
  fold_left (filterStep profileRepo) repos [].

(** The survival condition in the words of the specification: neither
    marker is set and the name differs from the owner identity once both
    are lowered. *)
Definition survives (username : string) (r : Repo) : bool :=
  negb (Fork r) && negb (Archived r) &&
  negb (String.eqb (ToLower (Github.Name r)) (ToLower username)).

End WithLibraries.
End Mapper.

(** ** package contentful *)

Module Contentful.

(** [Project].  [ShortDescription] is written by the enricher's composite
    literal, so the record carries it; [PushedAt] is not serialised. *)
Record Project := mkProject {
  Name : string;
  Slug : string;
  ShortDescription : string;
  Description : string;
  LongDescription : string;
  GithubURL : string;
  Technologies : list string;
  Highlights : list string;
  Featured : bool;
  Gradient : string;
  Category : string;
  PushedAt : Z
}.

(** The dynamic values held by an [interface{}] in this package: what
    [encoding/json] yields when it decodes into [interface{}] (numbers kept
    as their literal), and the [[]Project] slice stored by [UpdateProjects].
    A nested map lists its entries in the order in which [range] visits
    them in the run at hand; its keys are distinct. *)
#[local] Set Warnings "-register-all".
Inductive value :=
| VNil
| VBool (b : bool)
| VNum (literal : string)
| VStr (s : string)
| VArr (elems : list value)
| VMap (entries : list (string * value))
| VProjects (projects : list Project).

(** [m[key]] on a nested map. *)
Fixpoint mapIndex (entries : list (string * value)) (key : string) : option value :=
  match entries with
  | [] => None
  | (k, v) :: rest => if String.eqb k key then Some v else mapIndex rest key
  end.

(** [servicekit.Sys] *)
Module Sys.
Record Sys := mkSys { ID : string; Version : Z }.
End Sys.

(** [servicekit.EntryItem] *)
Record EntryItem := mkEntryItem {
  sys : Sys.Sys;
  Fields : gmap string value
}.

Record ProjectsResult := mkProjectsResult {
  Projects : list Project;
  EntryID : string;
  Version : Z;
  RawFields : gmap string value
}.

(** A result carries the identity and version of an entry. *)
Definition carries (r : ProjectsResult) (entry : EntryItem) : Prop :=
  EntryID r = Sys.ID (sys entry) /\ Version r = Sys.Version (sys entry).

(** What [json.Marshal] followed by [json.Unmarshal] into [[]Project] does
    with a decoded value. *)
Inductive Decode :=
| MarshalError (e : error)
| UnmarshalError (e : error)
| Decoded (projects : list Project).

(** A reference decoder for values whose objects use the exact JSON keys
    of [Project]: [null] is the nil slice, an array is decoded element by
    element, a [null] element is the zero [Project], and any other shape is
    a type error. *)
Module RefDecoder.

Definition zeroProject : Project :=
  mkProject "" "" "" "" "" "" [] [] false "" "" 0.

Definition asString (o : option value) : option string :=
  match o with
  | None | Some VNil => Some ""%string
  | Some (VStr s) => Some s
  | Some _ => None
  end.

Definition asBool (o : option value) : option bool :=
  match o with
  | None | Some VNil => Some false
  | Some (VBool b) => Some b
  | Some _ => None
  end.

Definition asStrings (o : option value) : option (list string) :=
  match o with
  | None | Some VNil => Some []
  | Some (VArr vs) => mapM (fun v => asString (Some v)) vs
  | Some _ => None
  end.

Definition project (v : value) : option Project :=
  match v with
  | VNil => Some zeroProject
  | VMap kv =>
      name ← asString (mapIndex kv "name");
      slug ← asString (mapIndex kv "slug");
      short ← asString (mapIndex kv "shortDescription");
      desc ← asString (mapIndex kv "description");
      long ← asString (mapIndex kv "longDescription");
      url ← asString (mapIndex kv "githubUrl");
      techs ← asStrings (mapIndex kv "technologies");
      highs ← asStrings (mapIndex kv "highlights");
      feat ← asBool (mapIndex kv "featured");
      grad ← asString (mapIndex kv "gradient");
      cat ← asString (mapIndex kv "category");
      Some (mkProject name slug short desc long url techs highs feat grad cat 0)
  | _ => None
  end.

(** The JSON kind named in a type error. *)
Definition kind (v : value) : string :=
  match v with
  | VNil => "null"
  | VBool _ => "bool"
  | VNum _ => "number"
  | VStr _ => "string"
  | VArr _ | VProjects _ => "array"
  | VMap _ => "object"
  end.

Definition decode (v : value) : Decode :=
  match v with
  | VNil => Decoded []
  | VArr vs =>
      match mapM project vs with
      | Some ps => Decoded ps
      | None => UnmarshalError "json: cannot unmarshal array element into Go value of type contentful.Project"
      end
  | _ =>
      UnmarshalError ("json: cannot unmarshal " +:+ kind v
                        +:+ " into Go value of type []contentful.Project")
  end.

End RefDecoder.

(** An HTTP exchange as [UpdateProjects] sees it. *)
Record Request := mkRequest {
  Method : string;
  URL : string;
  Header : gmap string string;
  Body : string
}.

Record Response := mkResponse {
  StatusCode : Z;
  (** outcome of [io.ReadAll(resp.Body)] *)
  ReadAll : string + error
}.

(** [body := map[string]interface{}{"fields": fields}] *)
Record WriteBody := mkWriteBody { fields : gmap string value }.

Section Client.
(** [json.Marshal] then [json.Unmarshal] into [[]Project]. *)
Variable decodeProjects : value -> Decode.
(** [servicekit.CMABaseURL], [c.SpaceID], [c.Token]. *)
Variables CMABaseURL SpaceID Token : string.
(** [json.Marshal(body)]. *)
Variable marshalBody : WriteBody -> string + error.
(** The error of [http.NewRequestWithContext], if any. *)
Variable newRequestError : string -> string -> option error.
(** [c.HTTPClient.Do]. *)
Variable httpDo : Request -> Response + error.
(** [json.NewDecoder(resp.Body).Decode(&updated)], on the body once read. *)
Variable decodeEntryItem : string -> EntryItem + error.

(** The value the [range] loop over a locale map leaves in [rawContent]:
    the first entry visited, or the untouched nil interface. *)
Definition rangeFirst (localeMap : list (string * value)) : value :=
  match localeMap with
  | [] => VNil
  | (_, v) :: _ => v
  end.

(** [GetProjects], given the outcome of [c.GetEntry] and of the fallback
    [c.findProjectsBySectionID].  The returned pair of a result pointer and an
    error is a pair of options. *)
Definition GetProjects (getEntry findBySectionID : EntryItem + error)
    : option ProjectsResult * option error :=
  let lookup :=
    match getEntry with
    | inl entry => inl entry
    | inr _ =>
        match findBySectionID with
        | inl entry => inl entry
        | inr err => inr ("get projects entry: " +:+ err)
        end
    end in
  match lookup with
  | inr err => (None, Some err)
  | inl entry =>
      match Fields entry !! "content"%string with
      | None =>
          (Some {| Projects := [];
                   EntryID := Sys.ID (sys entry);
                   Version := Sys.Version (sys entry);
                   RawFields := Fields entry |}, None)
      | Some contentField =>
          match contentField with
          | VMap localeMap =>
              let rawContent :=
                match mapIndex localeMap "en-US" with
                | Some v => v
                | None => rangeFirst localeMap
                end in
              match decodeProjects rawContent with
              | MarshalError err => (None, Some ("marshal content: " +:+ err))
              | UnmarshalError err => (None, Some ("unmarshal projects: " +:+ err))
              | Decoded projects =>
                  (Some {| Projects := projects;
                           EntryID := Sys.ID (sys entry);
                           Version := Sys.Version (sys entry);
                           RawFields := Fields entry |}, None)
              end
          | _ =>
              (Some {| Projects := [];
                       EntryID := Sys.ID (sys entry);
                       Version := Sys.Version (sys entry);
                       RawFields := Fields entry |},
               Some "content field is not locale-wrapped"%string)
          end
      end
  end.

(** The [fields] map of [UpdateProjects]: a fresh map filled by the [range]
    loop over [result.RawFields], then the assignment to ["content"]. *)
Definition copyFields (raw : gmap string value) : gmap string value :=
  map_fold (fun k v fields => <[k := v]> fields) ∅ raw.

Definition updateFields (result : ProjectsResult) (projects : list Project)
    : gmap string value :=
  let content := VMap [("en-US"%string, VProjects projects)] in
  <["content"%string := content]> (copyFields (RawFields result)).

Definition updateEndpoint (result : ProjectsResult) : string :=
  CMABaseURL +:+ "/spaces/" +:+ SpaceID +:+ "/environments/master/entries/"
    +:+ EntryID result.

Definition updateHeader (result : ProjectsResult) : gmap string string :=
  <["X-Contentful-Version"%string := GoStrings.itoa (Version result)]>
    (<["Content-Type"%string := "application/vnd.contentful.management.v1+json"%string]>
       (<["Authorization"%string := "Bearer " +:+ Token]> ∅)).

(** The outcome of a call: the request handed to the HTTP client, if the
    call got that far, and the Go pair [(int, error)]. *)
Record UpdateRun := mkUpdateRun {
  sent : option Request;
  newVersion : Z;
  updateErr : option error
}.

Definition UpdateProjects (result : ProjectsResult) (projects : list Project)
    : UpdateRun :=
  let endpoint := updateEndpoint result in
  let body := {| fields := updateFields result projects |} in
  match marshalBody body with
  | inr err => mkUpdateRun None 0 (Some ("marshal body: " +:+ err))
  | inl bodyBytes =>
      match newRequestError "PUT" endpoint with
      | Some err => mkUpdateRun None 0 (Some err)
      | None =>
          let req := {| Method := "PUT"; URL := endpoint;
                        Header := updateHeader result; Body := bodyBytes |} in
          match httpDo req with
          | inr err => mkUpdateRun (Some req) 0 (Some err)
          | inl resp =>
              if negb (StatusCode resp =? 200)%Z then
                match ReadAll resp with
                | inr err =>
                    mkUpdateRun (Some req) 0
                      (Some ("CMA update failed (" +:+ GoStrings.itoa (StatusCode resp)
                               +:+ "): could not read body: " +:+ err))
                | inl respBody =>
                    mkUpdateRun (Some req) 0
                      (Some ("CMA update failed (" +:+ GoStrings.itoa (StatusCode resp)
                               +:+ "): " +:+ respBody))
                end
              else
                match ReadAll resp with
                | inr err =>
                    mkUpdateRun (Some req) 0 (Some ("decode update response: " +:+ err))
                | inl respBody =>
                    match decodeEntryItem respBody with
                    | inr err =>
                        mkUpdateRun (Some req) 0
                          (Some ("decode update response: " +:+ err))
                    | inl updated =>
                        mkUpdateRun (Some req) (Sys.Version (sys updated)) None
                    end
                end
          end
      end
  end.

(** [url.Values.Encode] of the parameters set on the query. *)
Variable encodeQuery : list (string * string) -> string.
(** [json.NewDecoder(resp.Body).Decode(&result)] on the body once read:
    the [Items] of the decoded [EntriesResponse]. *)
Variable decodeEntries : string -> list EntryItem + error.
(** The [%q] verb of [fmt]. *)
Variable quote : string -> string.

(** The request of [findProjectsBySectionID]. *)
Definition findRequest (sectionID : string) : Request :=
  let endpoint :=
    CMABaseURL +:+ "/spaces/" +:+ SpaceID +:+ "/environments/master/entries" in
  let params :=
    [("content_type", "siteSection"); ("fields.sectionId", sectionID);
     ("limit", "1")]%string in
  {| Method := "GET";
     URL := endpoint +:+ "?" +:+ encodeQuery params;
     Header := <["Authorization"%string := "Bearer " +:+ Token]> ∅;
     Body := "" |}.

(** [findProjectsBySectionID]: every [return] gives either an entry or an
    error, so the result is a sum. *)
Definition findProjectsBySectionID (sectionID : string) : EntryItem + error :=
  let req := findRequest sectionID in
  match newRequestError "GET" (URL req) with
  | Some err => inr err
  | None =>
      match httpDo req with
      | inr err => inr err
      | inl resp =>
          if negb (StatusCode resp =? 200)%Z then
            match ReadAll resp with
            | inr err =>
                inr ("CMA query failed (" +:+ GoStrings.itoa (StatusCode resp)
                       +:+ "): could not read body: " +:+ err)
            | inl body =>
                inr ("CMA query failed (" +:+ GoStrings.itoa (StatusCode resp)
                       +:+ "): " +:+ body)
            end
          else
            match ReadAll resp with
            | inr err => inr ("decode response: " +:+ err)
            | inl body =>
                match decodeEntries body with
                | inr err => inr ("decode response: " +:+ err)
                | inl [] =>
                    inr ("no siteSection entry found with sectionId="
                           +:+ quote sectionID)
                | inl (item :: _) => inl item
                end
            end
      end
  end.

(** [GetProjects] with its two lookups: [c.GetEntry] and, for the
    fallback, [c.findProjectsBySectionID] with the same identifier. *)
Definition GetProjectsByID (GetEntry : string -> EntryItem + error)
    (entryID : string) : option ProjectsResult * option error :=
  GetProjects (GetEntry entryID) (findProjectsBySectionID entryID).

End Client.
End Contentful.

(** ** package enricher *)

Module Enricher.
Import GoStrings.

Definition maxReadmeChars : nat := 1500.
Definition maxRetries : nat := 3.

Record enrichedData := mkEnrichedData {
  Name : string;
  ShortDescription : string;
  Description : string;
  LongDescription : string;
  Technologies : list string;
  Highlights : list string;
  Category : string;
  Gradient : string
}.

(** The local type of [buildBatchPrompt]. *)
Record repoEntry := mkRepoEntry {
  entryName : string;
  entryLanguages : string;
  entryReadme : string
}.

(** The pair returned by [gemini.GenerateContent]. *)
Record Generated := mkGenerated {
  text : string;
  genErr : option error
}.

(** How control leaves the retry loop: a [return nil, err] inside it, or
    falling out of it (by [break] or by its condition) with the current
    [response] and [lastErr]. *)
Inductive LoopExit :=
| Returned (err : error)
| Left (response : string) (lastErr : option error).

(** The outcome of [Enrich]: the Go pair, and the number of calls made to
    [gemini.GenerateContent]. *)
Record EnrichRun := mkEnrichRun {
  calls : nat;
  enriched : option (list Contentful.Project);
  enrichErr : option error
}.

(** [strings.Join(elems, sep)] *)
Fixpoint Join (elems : list string) (sep : string) : string :=
  match elems with
  | [] => ""
  | [e] => e
  | e :: rest => e +:+ sep +:+ Join rest sep
  end.

(** [s[:n]] for [n <= len(s)] and [s[n:]]. *)
Definition sliceTo (s : string) (n : nat) : string := String.substring 0 n s.
Definition sliceFrom (s : string) (n : nat) : string :=
  String.substring n (String.length s - n) s.

Definition HasSuffix (s suffix : string) : bool :=
  let n := String.length s in
  let k := String.length suffix in
  Nat.leb k n && String.eqb (sliceFrom s (n - k)) suffix.

Definition TrimPrefix (s prefix : string) : string :=
  if HasPrefix s prefix then sliceFrom s (String.length prefix) else s.

Definition TrimSuffix (s suffix : string) : string :=
  if HasSuffix s suffix then sliceTo s (String.length s - String.length suffix)
  else s.

Definition isRateLimit (errText : string) : bool :=
  Contains errText "429" || Contains errText "RESOURCE_EXHAUSTED".

(** A call that fails with a rate-limit error: the zero string together
    with an error whose text carries one of the two markers. *)
Definition rateLimited (g : Generated) (err : error) : Prop :=
  text g = ""%string /\ genErr g = Some err /\ isRateLimit err = true.

(** The composite literal built for a matched pair. *)
Definition enrichedProject (raw : Mapper.RawProject) (data : enrichedData)
    : Contentful.Project :=
  {| Contentful.Name := Name data;
     Contentful.Slug := Mapper.Slug raw;
     Contentful.ShortDescription := ShortDescription data;
     Contentful.Description := Description data;
     Contentful.LongDescription := LongDescription data;
     Contentful.GithubURL := Mapper.GitHubURL raw;
     Contentful.Technologies := Technologies data;
     Contentful.Highlights := Highlights data;
     Contentful.Featured := false;
     Contentful.Gradient := Gradient data;
     Contentful.Category := Category data;
     Contentful.PushedAt := Mapper.PushedAt raw |}.

(** One iteration of the matching loop; the state is the index [i] and the
    [result] slice. *)
Definition matchStep (dataList : list enrichedData)
    (st : nat * list Contentful.Project) (raw : Mapper.RawProject)
    : nat * list Contentful.Project :=
  let '(i, result) := st in
  match dataList !! i with
  | None => (S i, result)
  | Some data => (S i, result ++ [enrichedProject raw data])
  end.

Definition matchByPosition (projects : list Mapper.RawProject)
    (dataList : list enrichedData) : list Contentful.Project :=
  snd (fold_left (matchStep dataList) projects (0, [])).

Section WithServices.
(** [strings.TrimSpace] *)
Variable TrimSpace : string -> string.
(** [json.Marshal] of the prompt entries. *)
Variable marshalEntries : list repoEntry -> string + error.
(** [gemini.GenerateContent] with the fixed key and system prompt: the pair
    it returns at a given attempt for a given user prompt. *)
Variable GenerateContent : nat -> string -> Generated.
(** Whether the context is done before the backoff wait preceding a given
    attempt elapses, and then [ctx.Err()]. *)
Variable ctxDone : nat -> option error.
(** [json.Unmarshal] into [[]enrichedData]. *)
Variable unmarshalData : string -> list enrichedData + error.

Definition promptEntry (p : Mapper.RawProject) : repoEntry :=
  let readme := Mapper.ReadmeRaw p in
  let readme :=
    if Nat.ltb maxReadmeChars (String.length readme)
    then sliceTo readme maxReadmeChars else readme in
  {| entryName := Mapper.Name p;
     entryLanguages := Join (Mapper.Languages p) ", ";
     entryReadme := readme |}.

Definition buildBatchPrompt (projects : list Mapper.RawProject) : string :=
  match marshalEntries (map promptEntry projects) with
  | inr _ => "[]"
  | inl jsonBytes => jsonBytes
  end.

Definition stripMarkdownFences (s : string) : string :=
  let s := TrimSpace s in
  let s :=
    if HasPrefix s "```json" then TrimPrefix s "```json"
    else if HasPrefix s "```" then TrimPrefix s "```"
    else s in
  let s := TrimSuffix s "```" in
  TrimSpace s.

(** The retry loop [for attempt := 0; attempt <= maxRetries; attempt++].
    [remaining] counts the iterations still allowed by the loop condition;
    the result pairs the number of generation calls with the exit. *)
Fixpoint retryLoop (userPrompt : string) (remaining attempt : nat)
    (response : string) (lastErr : option error) : nat * LoopExit :=
  match remaining with
  | O => (0, Left response lastErr)
  | S remaining' =>
      match (if Nat.ltb 0 attempt then ctxDone attempt else None) with
      | Some ctxErr => (0, Returned ctxErr)
      | None =>
          let g := GenerateContent attempt userPrompt in
          match genErr g with
          | None => (1, Left (text g) lastErr)
          | Some err =>
              if negb (Contains err "429") && negb (Contains err "RESOURCE_EXHAUSTED")
              then (1, Returned ("gemini: " +:+ err))
              else
                let '(n, exit) :=
                  retryLoop userPrompt remaining' (S attempt) (text g) (Some err) in
                (S n, exit)
          end
      end
  end.

Definition Enrich (projects : list Mapper.RawProject) : EnrichRun :=
  let userPrompt := buildBatchPrompt projects in
  let '(n, exit) := retryLoop userPrompt (maxRetries + 1) 0 "" None in
  match exit with
  | Returned err => mkEnrichRun n None (Some err)
  | Left response lastErr =>
      match (if String.eqb response "" then lastErr else None) with
      | Some err =>
          mkEnrichRun n None
            (Some ("gemini after " +:+ itoa (Z.of_nat maxRetries) +:+ " retries: " +:+ err))
      | None =>
          let response := stripMarkdownFences response in
          match unmarshalData response with
          | inr err => mkEnrichRun n None (Some ("parse gemini response: " +:+ err))
          | inl dataList =>
              mkEnrichRun n (Some (matchByPosition projects dataList)) None
          end
      end
  end.

(** What [Enrich] makes of a response text once the retry loop is over:
    the steps after the loop and its emptiness check. *)
Definition parsed (calls : nat) (projects : list Mapper.RawProject)
    (response : string) : EnrichRun :=
  match unmarshalData (stripMarkdownFences response) with
  | inr err => mkEnrichRun calls None (Some ("parse gemini response: " +:+ err))
  | inl dataList => mkEnrichRun calls (Some (matchByPosition projects dataList)) None
  end.

(** The attempts before
    attempt [k] were all rate-limited and the context stayed live through
    the waits before attempts [1] to [k - 1]. *)
Definition rateLimitedBefore (userPrompt : string) (k : nat) : Prop :=
  (forall j, j < k -> 0 < j -> ctxDone j = None) /\
  (forall j, j < k -> exists e,
      genErr (GenerateContent j userPrompt) = Some e /\ isRateLimit e = true).

End WithServices.
End Enricher.

(** ** package heuristic *)

Module Heuristic.
Import Contentful.

Definition setFeatured (p : Project) (b : bool) : Project :=
  {| Name := Name p; Slug := Slug p;
     ShortDescription := ShortDescription p;
     Description := Description p;
     LongDescription := LongDescription p;
     GithubURL := GithubURL p;
     Technologies := Technologies p;
     Highlights := Highlights p;
     Featured := b;
     Gradient := Gradient p;
     Category := Category p;
     PushedAt := PushedAt p |}.

(** [projects[i].PushedAt.After(projects[j].PushedAt)] *)
Definition after (a b : Project) : bool := (PushedAt b <? PushedAt a)%Z.

(** The body of the marking loop: [projects[i].Featured = i < maxFeatured]. *)
Definition mark (maxFeatured : Z) (i : nat) (p : Project) : Project :=
  setFeatured p (Z.of_nat i <? maxFeatured)%Z.

(** A project with its featured flag cleared, to compare projects up to
    that flag. *)
Definition unflag (p : Project) : Project := setFeatured p false.

Section WithSort.
Context {sorter : SliceSorter}.

(** [ApplyFeatured]; [None] is the run-time panic of [projects[:maxTotal]]
    for a negative [maxTotal]. *)
Definition ApplyFeatured (projects : list Project) (maxFeatured maxTotal : Z)
    : option (list Project) :=
  let projects := sortSlice after projects in
  let truncated :=
    if (maxTotal <? Z.of_nat (length projects))%Z then
      if (maxTotal <? 0)%Z then None
      else Some (take (Z.to_nat maxTotal) projects)
    else Some projects in
  match truncated with
  | None => None
  | Some projects =>
      Some (imap (mark maxFeatured) projects)
  end.

End WithSort.
End Heuristic.

(** ** package syncer: the detail collector *)

Module Syncer.
Import Github.

(** [SyncStats] holds the results of a sync run. *)
Record SyncStats := mkSyncStats {
  NewAdded : Z;
  Total : Z;
  Status : string
}.

(** The capacity of the semaphore channel [sem]. *)
Definition semCapacity : nat := 5.

(** A goroutine of [fetchDetails]: the position of its repo in the input
    and the repo it was started with. *)
Definition Task : Type := nat * Repo.

(** The shared variables of [fetchDetails] and where each goroutine is:
    not started yet, blocked on [sem <- struct{}{}], or holding a slot. *)
Record State := mkState {
  unspawned : list Task;
  waiting : list Task;
  running : list Task;
  rawProjects : list Mapper.RawProject;
  firstErr : option error
}.

(** What the scheduler lets happen next: the [for] loop starts the next
    goroutine, the k-th blocked goroutine gets a semaphore slot, or the k-th
    goroutine holding a slot runs to its end. *)
Inductive Choice :=
| Spawn
| Acquire (k : nat)
| Finish (k : nat).

Section WithClient.
Context {sorter : SliceSorter}.
(** [s.github.GetRepoLanguages] and [s.github.GetRepoREADME] as called by
    the goroutine at a given position: the returned pair. *)
Variable GetRepoLanguages : nat -> Repo -> list (string * Z) * option error.
Variable GetRepoREADME : nat -> Repo -> string * option error.

(** The body of a goroutine between taking and releasing its slot: the
    [RawProject] it appends under the mutex. *)
Definition collect (t : Task) : Mapper.RawProject :=
  let '(i, r) := t in
  let '(languages, err) := GetRepoLanguages i r in
  let languages := match err with Some _ => [] | None => languages end in
  let '(readme, _) := GetRepoREADME i r in
  Mapper.ToRawProject r languages readme.

Definition init (repos : list Repo) : State :=
  {| unspawned := imap (fun i r => (i, r)) repos;
     waiting := []; running := []; rawProjects := []; firstErr := None |}.

Definition stepWith (c : Choice) (s : State) : option State :=
  match c with
  | Spawn =>
      match unspawned s with
      | [] => None
      | t :: rest =>
          Some {| unspawned := rest; waiting := waiting s ++ [t];
                  running := running s; rawProjects := rawProjects s;
                  firstErr := firstErr s |}
      end
  | Acquire k =>
      match waiting s !! k with
      | Some t =>
          if Nat.ltb (length (running s)) semCapacity then
            Some {| unspawned := unspawned s; waiting := delete k (waiting s);
                    running := running s ++ [t]; rawProjects := rawProjects s;
                    firstErr := firstErr s |}
          else None
      | None => None
      end
  | Finish k =>
      match running s !! k with
      | Some t =>
          Some {| unspawned := unspawned s; waiting := waiting s;
                  running := delete k (running s);
                  rawProjects := rawProjects s ++ [collect t];
                  firstErr := firstErr s |}
      | None => None
      end
  end.

Fixpoint exec (schedule : list Choice) (s : State) : option State :=
  match schedule with
  | [] => Some s
  | c :: rest =>
      match stepWith c s with
      | Some s' => exec rest s'
      | None => None
      end
  end.

(** [wg.Wait()] returns: every goroutine was started and has finished. *)
Definition allDone (s : State) : bool :=
  match unspawned s, waiting s, running s with
  | [], [], [] => true
  | _, _, _ => false
  end.

(** The [return] statements after [wg.Wait()]. *)
Definition returned (s : State) : option (list Mapper.RawProject) * option error :=
  match firstErr s with
  | Some err => (None, Some err)
  | None => (Some (rawProjects s), None)
  end.

(** Every goroutine is accounted for: those that have not appended yet and
    the appended projects together are the projects of all goroutines, and
    [firstErr] was never assigned. *)
Definition accounted (all : list Task) (s : State) : Prop :=
  Permutation
    ((collect <$> (unspawned s ++ waiting s ++ running s)) ++ rawProjects s)
    (collect <$> all) /\
  firstErr s = None.

(** Work left: an upper bound on the number of further steps. *)
Definition workLeft (s : State) : nat :=
  3 * length (unspawned s) + 2 * length (waiting s) + length (running s).

End WithClient.
End Syncer.

(** ** package cmd: the audit log recorder *)

Module Cmd.

(** [servicekit.BuildLogEntry] *)
Record BuildLogEntry := mkBuildLogEntry {
  Service : string;
  Timestamp : string;
  TriggeredBy : string;
  ForceUpdate : bool;
  TranslationUsed : bool;
  NewAdded : Z;
  TotalAfterSync : Z;
  Status : string
}.

(** The fields of the build-log result that [recordBuildLog] reads. *)
Record BuildLogResult := mkBuildLogResult {
  EntryID : string;
  Version : Z;
  Entries : list BuildLogEntry
}.

(** Calls made on the store client, in order. *)
Inductive StoreCall :=
| CreateBuildLog (entries : list BuildLogEntry)
| UpdateBuildLog (result : BuildLogResult) (entries : list BuildLogEntry)
| PublishEntry (entryID : string) (version : Z).

Definition serviceName : string := "github-cms-sync".

(** The test of the partition loop: the entry belongs to this service. *)
Definition isOwn (e : BuildLogEntry) : bool := String.eqb (Service e) serviceName.
Definition isOther (e : BuildLogEntry) : bool := negb (isOwn e).

(** One iteration of the partition loop; the state is the pair
    [(ownEntries, otherEntries)]. *)
Definition partitionStep (st : list BuildLogEntry * list BuildLogEntry)
    (e : BuildLogEntry) : list BuildLogEntry * list BuildLogEntry :=
  let '(ownEntries, otherEntries) := st in
  if isOwn e
  then (ownEntries ++ [e], otherEntries)
  else (ownEntries, otherEntries ++ [e]).

(** The list handed to the store: [allLogEntries]. *)
Definition allLogEntries (entries : list BuildLogEntry) (logEntry : BuildLogEntry)
    : list BuildLogEntry :=
  let '(ownEntries, otherEntries) := fold_left partitionStep entries ([], []) in
  let ownEntries :=
    if Nat.leb 3 (length ownEntries)
    then drop (length ownEntries - 2) ownEntries
    else ownEntries in
  otherEntries ++ (ownEntries ++ [logEntry]).

Section WithStore.
(** [os.Getenv("GITHUB_ACTIONS")] and [time.Now().UTC().Format(time.RFC3339)]. *)
Variables (githubActions now : string).
(** Outcomes of the store client's methods. *)
Variable GetBuildLog : BuildLogResult + error.
Variable createBuildLog : list BuildLogEntry -> (string * Z) + error.
Variable updateBuildLog : BuildLogResult -> list BuildLogEntry -> Z + error.

Definition newLogEntry (cfgForceUpdate : bool) (stats : Syncer.SyncStats) : BuildLogEntry :=
  let triggeredBy :=
    if String.eqb githubActions "true" then "github-actions"%string
    else "local"%string in
  {| Service := serviceName;
     Timestamp := now;
     TriggeredBy := triggeredBy;
     ForceUpdate := cfgForceUpdate;
     TranslationUsed := false;
     NewAdded := Syncer.NewAdded stats;
     TotalAfterSync := Syncer.Total stats;
     Status := Syncer.Status stats |}.

(** [recordBuildLog]: the store calls it makes after [GetBuildLog].  The
    outcome of [PublishEntry] only decides which line is logged. *)
Definition recordBuildLog (cfgForceUpdate : bool) (stats : Syncer.SyncStats)
    : list StoreCall :=
  let logEntry := newLogEntry cfgForceUpdate stats in
  match GetBuildLog with
  | inr _ => []
  | inl buildLogResult =>
      let all := allLogEntries (Entries buildLogResult) logEntry in
      if String.eqb (EntryID buildLogResult) "" then
        match createBuildLog all with
        | inr _ => [CreateBuildLog all]
        | inl (buildLogEntryID, buildLogVersion) =>
            [CreateBuildLog all; PublishEntry buildLogEntryID buildLogVersion]
        end
      else
        match updateBuildLog buildLogResult all with
        | inr _ => [UpdateBuildLog buildLogResult all]
        | inl buildLogVersion =>
            [UpdateBuildLog buildLogResult all;
             PublishEntry (EntryID buildLogResult) buildLogVersion]
        end
  end.

End WithStore.
End Cmd.

(** ** package config *)

Module Config.

Record Config := mkConfig {
  GitHubUsername : string;
  GitHubToken : string;
  SpaceID : string;
  CMAToken : string;
  EntryID : string;
  GeminiAPIKey : string;
  MaxFeatured : Z;
  MaxProjects : Z;
  ForceUpdate : bool
}.

Definition digitValue (c : ascii) : option Z :=
  let n := nat_of_ascii c in
  if Nat.leb 48 n && Nat.leb n 57 then Some (Z.of_nat (n - 48)) else None.

(** The value of a string of decimal digits, most significant first. *)
Fixpoint digits (s : string) (acc : Z) : option Z :=
  match s with
  | EmptyString => Some acc
  | String c s' =>
      match digitValue c with
      | Some d => digits s' (10 * acc + d)%Z
      | None => None
      end
  end.

(** [strconv.Atoi] for a 64-bit [int]: an optional sign, at least one
    decimal digit, nothing else, and a value that fits; [None] is any
    error. *)
Definition Atoi (s : string) : option Z :=
  let '(neg, body) :=
    match s with
    | String "-" rest => (true, rest)
    | String "+" rest => (false, rest)
    | _ => (false, s)
    end in
  match body with
  | EmptyString => None
  | _ =>
      match digits body 0 with
      | None => None
      | Some n =>
          let v := if neg then (- n)%Z else n in
          if (- 2 ^ 63 <=? v)%Z && (v <=? 2 ^ 63 - 1)%Z then Some v else None
      end
  end.

(** The value of a decimal numeral read most significant digit first,
    continuing from [acc]: what [digits] computes on its printed form. *)
Fixpoint uintValue (d : Decimal.uint) (acc : Z) : Z :=
  match d with
  | Decimal.Nil => acc
  | Decimal.D0 l => uintValue l (10 * acc + 0)
  | Decimal.D1 l => uintValue l (10 * acc + 1)
  | Decimal.D2 l => uintValue l (10 * acc + 2)
  | Decimal.D3 l => uintValue l (10 * acc + 3)
  | Decimal.D4 l => uintValue l (10 * acc + 4)
  | Decimal.D5 l => uintValue l (10 * acc + 5)
  | Decimal.D6 l => uintValue l (10 * acc + 6)
  | Decimal.D7 l => uintValue l (10 * acc + 7)
  | Decimal.D8 l => uintValue l (10 * acc + 8)
  | Decimal.D9 l => uintValue l (10 * acc + 9)
  end.

(** [strconv.ParseBool]; [None] is the syntax error. *)
Definition ParseBool (s : string) : option bool :=
  if existsb (String.eqb s) ["1"; "t"; "T"; "TRUE"; "true"; "True"]%string
  then Some true
  else if existsb (String.eqb s) ["0"; "f"; "F"; "FALSE"; "false"; "False"]%string
  then Some false
  else None.

Section WithEnvironment.
(** [os.Getenv]: the empty string for an unset variable. *)
Variable Getenv : string -> string.

Definition envInt (key : string) (defaultVal : Z) : Z :=
  let v := Getenv key in
  if negb (String.eqb v "") then
    match Atoi v with
    | Some n => n
    | None => defaultVal
    end
  else defaultVal.

Definition Load : Config + error :=
  let username := Getenv "GITHUB_USERNAME" in
  let username :=
    if String.eqb username "" then "alberto-moreno-sa"%string else username in
  if String.eqb (Getenv "CONTENTFUL_SPACE_ID") "" then
    inr "CONTENTFUL_SPACE_ID is required"%string
  else if String.eqb (Getenv "CONTENTFUL_CMA_TOKEN") "" then
    inr "CONTENTFUL_CMA_TOKEN is required"%string
  else if String.eqb (Getenv "CONTENTFUL_ENTRY_ID") "" then
    inr "CONTENTFUL_ENTRY_ID is required"%string
  else if String.eqb (Getenv "GEMINI_API_KEY") "" then
    inr "GEMINI_API_KEY is required"%string
  else
    inl {| GitHubUsername := username;
           GitHubToken := Getenv "GITHUB_TOKEN";
           SpaceID := Getenv "CONTENTFUL_SPACE_ID";
           CMAToken := Getenv "CONTENTFUL_CMA_TOKEN";
           EntryID := Getenv "CONTENTFUL_ENTRY_ID";
           GeminiAPIKey := Getenv "GEMINI_API_KEY";
           MaxFeatured := envInt "MAX_FEATURED" 5;
           MaxProjects := envInt "MAX_PROJECTS" 15;
           ForceUpdate :=
             match ParseBool (Getenv "FORCE_UPDATE") with
             | Some b => b
             | None => false
             end |}.

End WithEnvironment.
End Config.

(** ** package syncer: the pipeline, and the [sync] command around it *)

Module Pipeline.
Import Github.

(** Everything outside the process that one run meets: the standard
    library and service functions the packages call, and the outcomes of
    the network calls of this run. *)
Record World := mkWorld {
  ToLower : string -> string;
  TrimSpace : string -> string;
  (** [s.github.ListRepos] *)
  ListRepos : list Repo + error;
  (** the state of [fetchDetails] when [wg.Wait] returns *)
  fetched : Syncer.State;
  marshalEntries : list Enricher.repoEntry -> string + error;
  GenerateContent : nat -> string -> Enricher.Generated;
  ctxDone : nat -> option error;
  unmarshalData : string -> list Enricher.enrichedData + error;
  decodeProjects : Contentful.value -> Contentful.Decode;
  CMABaseURL : string;
  marshalBody : Contentful.WriteBody -> string + error;
  newRequestError : string -> string -> option error;
  httpDo : Contentful.Request -> Contentful.Response + error;
  decodeEntryItem : string -> Contentful.EntryItem + error;
  encodeQuery : list (string * string) -> string;
  decodeEntries : string -> list Contentful.EntryItem + error;
  quote : string -> string;
  (** [c.GetEntry] and [c.PublishEntry] of the SDK client *)
  GetEntry : string -> Contentful.EntryItem + error;
  PublishEntry : string -> Z -> option error;
  (** what [recordBuildLog] reads and calls *)
  githubActions : string;
  now : string;
  GetBuildLog : Cmd.BuildLogResult + error;
  createBuildLog : list Cmd.BuildLogEntry -> (string * Z) + error;
  updateBuildLog : Cmd.BuildLogResult -> list Cmd.BuildLogEntry -> Z + error
}.

(** Calls [Run] makes on the store client, in order. *)
Inductive StoreOp :=
| OpGetProjects (entryID : string)
| OpUpdateProjects (result : Contentful.ProjectsResult)
    (projects : list Contentful.Project)
| OpPublishEntry (entryID : string) (version : Z).

(** How a call ends: with the Go pair of a stats pointer and an error, or
    in a run-time panic. *)
Inductive Outcome :=
| Panics
| Returns (stats : option Syncer.SyncStats) (err : option error).

Record RunTrace := mkRunTrace {
  outcome : Outcome;
  (** calls to [gemini.GenerateContent] *)
  geminiCalls : nat;
  storeOps : list StoreOp
}.

Section WithWorld.
Context {sorter : SliceSorter}.
Variable w : World.
Variable cfg : Config.Config.

Definition enrich (rawProjects : list Mapper.RawProject) : Enricher.EnrichRun :=
  Enricher.Enrich (TrimSpace w) (marshalEntries w) (GenerateContent w) (ctxDone w)
    (unmarshalData w) rawProjects.

Definition getProjects : option Contentful.ProjectsResult * option error :=
  Contentful.GetProjectsByID (decodeProjects w) (CMABaseURL w)
    (Config.SpaceID cfg) (Config.CMAToken cfg) (newRequestError w) (httpDo w)
    (encodeQuery w) (decodeEntries w) (quote w) (GetEntry w) (Config.EntryID cfg).

Definition updateProjects (result : Contentful.ProjectsResult)
    (projects : list Contentful.Project) : Contentful.UpdateRun :=
  Contentful.UpdateProjects (CMABaseURL w) (Config.SpaceID cfg)
    (Config.CMAToken cfg) (marshalBody w) (newRequestError w) (httpDo w)
    (decodeEntryItem w) result projects.

(** [Syncer.Run].  A nil slice is the empty list. *)
Definition Run : RunTrace :=
  match ListRepos w with
  | inr err => mkRunTrace (Returns None (Some ("list repos: " +:+ err))) 0 []
  | inl repos =>
      let filtered := Mapper.FilterRepos (ToLower w) repos (Config.GitHubUsername cfg) in
      if Nat.eqb (length filtered) 0 then
        mkRunTrace (Returns (Some (Syncer.mkSyncStats 0 0 "success")) None) 0 []
      else
        match Syncer.returned (fetched w) with
        | (_, Some err) =>
            mkRunTrace (Returns None (Some ("fetch details: " +:+ err))) 0 []
        | (rawProjects, None) =>
            let run := enrich (default [] rawProjects) in
            match Enricher.enrichErr run with
            | Some err =>
                mkRunTrace (Returns None (Some ("enrich: " +:+ err)))
                  (Enricher.calls run) []
            | None =>
                match Heuristic.ApplyFeatured (default [] (Enricher.enriched run))
                        (Config.MaxFeatured cfg) (Config.MaxProjects cfg) with
                | None => mkRunTrace Panics (Enricher.calls run) []
                | Some projects =>
                    let get := OpGetProjects (Config.EntryID cfg) in
                    match getProjects with
                    | (_, Some err) =>
                        mkRunTrace (Returns None (Some ("get projects: " +:+ err)))
                          (Enricher.calls run) [get]
                    | (None, None) => mkRunTrace Panics (Enricher.calls run) [get]
                    | (Some result, None) =>
                        let update := updateProjects result projects in
                        let put := OpUpdateProjects result projects in
                        match Contentful.updateErr update with
                        | Some err =>
                            mkRunTrace
                              (Returns None (Some ("update projects: " +:+ err)))
                              (Enricher.calls run) [get; put]
                        | None =>
                            let publish :=
                              OpPublishEntry (Contentful.EntryID result)
                                (Contentful.newVersion update) in
                            match PublishEntry w (Contentful.EntryID result)
                                    (Contentful.newVersion update) with
                            | Some err =>
                                mkRunTrace
                                  (Returns None (Some ("publish: " +:+ err)))
                                  (Enricher.calls run) [get; put; publish]
                            | None =>
                                mkRunTrace
                                  (Returns
                                     (Some {| Syncer.NewAdded :=
                                                Z.of_nat (length projects)
                                                - Z.of_nat (length (Contentful.Projects result));
                                              Syncer.Total := Z.of_nat (length projects);
                                              Syncer.Status := "success" |})
                                     None)
                                  (Enricher.calls run) [get; put; publish]
                            end
                        end
                    end
                end
            end
        end
  end.

End WithWorld.

(** The outcome of the [sync] command: the error it returns (nil for exit
    code 0) or [None] for a panic, the trace of [Run] if it was called, and
    the calls [recordBuildLog] made. *)
Record CommandRun := mkCommandRun {
  exit : option (option error);
  ran : option RunTrace;
  auditCalls : list Cmd.StoreCall
}.

(** [cfg.ForceUpdate = true] *)
Definition withForce (cfg : Config.Config) : Config.Config :=
  {| Config.GitHubUsername := Config.GitHubUsername cfg;
     Config.GitHubToken := Config.GitHubToken cfg;
     Config.SpaceID := Config.SpaceID cfg;
     Config.CMAToken := Config.CMAToken cfg;
     Config.EntryID := Config.EntryID cfg;
     Config.GeminiAPIKey := Config.GeminiAPIKey cfg;
     Config.MaxFeatured := Config.MaxFeatured cfg;
     Config.MaxProjects := Config.MaxProjects cfg;
     Config.ForceUpdate := true |}.

(** The [RunE] function of [syncCmd]. *)
Definition RunE {sorter : SliceSorter} (Getenv : string -> string)
    (forceFlag : bool) (w : World) : CommandRun :=
  match Config.Load Getenv with
  | inr err => mkCommandRun (Some (Some ("config: " +:+ err))) None []
  | inl cfg =>
      let cfg := if forceFlag then withForce cfg else cfg in
      let run := Run w cfg in
      match outcome run with
      | Panics => mkCommandRun None (Some run) []
      | Returns _ (Some err) =>
          mkCommandRun (Some (Some ("sync: " +:+ err))) (Some run) []
      | Returns None None => mkCommandRun None (Some run) []
      | Returns (Some stats) None =>
          mkCommandRun (Some None) (Some run)
            (Cmd.recordBuildLog (githubActions w) (now w) (GetBuildLog w)
               (createBuildLog w) (updateBuildLog w) (Config.ForceUpdate cfg) stats)
      end
  end.

(** The same world with another audit document and clock. *)
Definition withAudit (w : World) (actions stamp : string)
    (get : Cmd.BuildLogResult + error)
    (create : list Cmd.BuildLogEntry -> (string * Z) + error)
    (update : Cmd.BuildLogResult -> list Cmd.BuildLogEntry -> Z + error) : World :=
  {| ToLower := ToLower w; TrimSpace := TrimSpace w; ListRepos := ListRepos w;
     fetched := fetched w; marshalEntries := marshalEntries w;
     GenerateContent := GenerateContent w; ctxDone := ctxDone w;
     unmarshalData := unmarshalData w; decodeProjects := decodeProjects w;
     CMABaseURL := CMABaseURL w; marshalBody := marshalBody w;
     newRequestError := newRequestError w; httpDo := httpDo w;
     decodeEntryItem := decodeEntryItem w; encodeQuery := encodeQuery w;
     decodeEntries := decodeEntries w; quote := quote w;
     GetEntry := GetEntry w; PublishEntry := PublishEntry w;
     githubActions := actions; now := stamp; GetBuildLog := get;
     createBuildLog := create; updateBuildLog := update |}.

End Pipeline.

(** ** Concrete services for running the embedding

    Stand-ins for the external services, used to run the functions above on
    concrete inputs. *)

Module Demo.

Definition isSpace (c : ascii) : bool :=
  let n := nat_of_ascii c in
  (Nat.leb 9 n && Nat.leb n 13) || Nat.eqb n 32.

Fixpoint trimLeft (s : string) : string :=
  match s with
  | String c s' => if isSpace c then trimLeft s' else s
  | EmptyString => EmptyString
  end.

Fixpoint trimRight (s : string) : string :=
  match s with
  | EmptyString => EmptyString
  | String c s' =>
      match trimRight s' with
      | EmptyString => if isSpace c then EmptyString else String c EmptyString
      | t => String c t
      end
  end.

(** [strings.TrimSpace] on ASCII text. *)
Definition TrimSpace (s : string) : string := trimRight (trimLeft s).

(** A prompt encoder that lists the entry names. *)
Definition marshalEntries (entries : list Enricher.repoEntry) : string + error :=
  inl ("[" +:+ Enricher.Join (map Enricher.entryName entries) "," +:+ "]").

Definition rawTool : Mapper.RawProject :=
  Mapper.mkRawProject "tool" "tool" "https://github.com/u/tool" "" ["Go"] "# tool" 12 400.
Definition rawSite : Mapper.RawProject :=
  Mapper.mkRawProject "site" "site" "https://github.com/u/site" "" ["TypeScript"] "# site" 30 300.

Definition dataTool : Enricher.enrichedData :=
  Enricher.mkEnrichedData "Tool" "A tool" "Does things" "Does many things"
    ["Go"] ["Fast"] "Backend" "from-cyan-500 to-blue-600".
Definition dataSite : Enricher.enrichedData :=
  Enricher.mkEnrichedData "Site" "A site" "Shows things" "Shows many things"
    ["React"] ["Pretty"] "Web" "from-purple-500 to-indigo-600".
Definition dataExtra : Enricher.enrichedData :=
  Enricher.mkEnrichedData "Extra" "" "" "" [] [] "Web" "".

(** A decoder that knows three response texts. *)
Definition unmarshalData (s : string) : list Enricher.enrichedData + error :=
  if String.eqb s "[tool]" then inl [dataTool]
  else if String.eqb s "[tool,site,extra]" then inl [dataTool; dataSite; dataExtra]
  else if String.eqb s "null" then inl []
  else inr "invalid character"%string.

(** A model that answers at once with one entry inside a code fence. *)
Definition answerShort (attempt : nat) (userPrompt : string) : Enricher.Generated :=
  let nl := String (ascii_of_nat 10) "" in
  Enricher.mkGenerated ("```json" +:+ nl +:+ "[tool]" +:+ nl +:+ "```" +:+ nl) None.

(** A service that is rate-limited at every attempt. *)
Definition alwaysRateLimited (attempt : nat) (userPrompt : string)
    : Enricher.Generated :=
  Enricher.mkGenerated "" (Some "googleapi: Error 429: RESOURCE_EXHAUSTED"%string).

(** A service that is rate-limited once and then rejects the key. *)
Definition rateLimitedThenDenied (attempt : nat) (userPrompt : string)
    : Enricher.Generated :=
  match attempt with
  | O => Enricher.mkGenerated "" (Some "googleapi: Error 429: quota"%string)
  | _ => Enricher.mkGenerated "" (Some "googleapi: Error 403: API key not valid"%string)
  end.

Definition neverDone (attempt : nat) : option error := None.

(** An entry whose container is locale-wrapped but holds a string where
    the project array should be, next to an unrelated field. *)
Definition brokenEntry : Contentful.EntryItem :=
  Contentful.mkEntryItem (Contentful.Sys.mkSys "6Xy" 7)
    (<["content"%string := Contentful.VMap [("en-US"%string, Contentful.VStr "oops")] ]>
       (<["title"%string := Contentful.VMap [("en-US"%string, Contentful.VStr "Projects")] ]> ∅)).

(** An entry whose container is a bare string. *)
Definition unwrappedEntry : Contentful.EntryItem :=
  Contentful.mkEntryItem (Contentful.Sys.mkSys "6Xy" 7)
    (<["content"%string := Contentful.VStr "oops"]> ∅).

(** An entry without a container. *)
Definition freshEntry : Contentful.EntryItem :=
  Contentful.mkEntryItem (Contentful.Sys.mkSys "6Xy" 1)
    (<["title"%string := Contentful.VMap [("en-US"%string, Contentful.VStr "Projects")] ]> ∅).

(** A body encoder that only reports how many fields it was given. *)
Definition marshalBody (body : Contentful.WriteBody) : string + error :=
  inl ("fields:" +:+ GoStrings.itoa (Z.of_nat (size (Contentful.fields body)))).

Definition newRequestError (method url : string) : option error := None.

(** A store that rejects every write with a version conflict. *)
Definition conflictStore (req : Contentful.Request) : Contentful.Response + error :=
  inl (Contentful.mkResponse 409 (inl "VersionMismatch"%string)).

Definition decodeEntryItem (body : string) : Contentful.EntryItem + error :=
  inr "unexpected end of JSON input"%string.

Definition repoA : Github.Repo :=
  Github.mkRepo "alpha" "https://github.com/u/alpha" None 10 100 false false.
Definition repoB : Github.Repo :=
  Github.mkRepo "beta" "https://github.com/u/beta" (Some "https://beta.dev"%string)
    20 200 false false.

(** The language fetch fails for the first goroutine only. *)
Definition languagesOf (i : nat) (r : Github.Repo) : list (string * Z) * option error :=
  match i with
  | O => ([], Some "context deadline exceeded"%string)
  | _ => ([("C"%string, 10%Z); ("Go"%string, 20%Z)], None)
  end.

(** The readme fetch fails for every goroutine but the first. *)
Definition readmeOf (i : nat) (r : Github.Repo) : string * option error :=
  match i with
  | O => ("# alpha"%string, None)
  | _ => (""%string, Some "404 Not Found"%string)
  end.

(** Both goroutines are started, the second gets its slot first and
    finishes first. *)
Definition secondFirst : list Syncer.Choice :=
  [Syncer.Spawn; Syncer.Spawn; Syncer.Acquire 1; Syncer.Acquire 0;
   Syncer.Finish 0; Syncer.Finish 0].

Definition logOf (service stamp : string) : Cmd.BuildLogEntry :=
  Cmd.mkBuildLogEntry service stamp "github-actions" false false 0 15 "success".

(** Five entries of this service and three of two other services,
    interleaved, oldest first. *)
Definition auditLog : list Cmd.BuildLogEntry :=
  [logOf "github-cms-sync" "t1"; logOf "blog-sync" "t2";
   logOf "github-cms-sync" "t3"; logOf "github-cms-sync" "t4";
   logOf "resume-sync" "t5"; logOf "github-cms-sync" "t6";
   logOf "blog-sync" "t7"; logOf "github-cms-sync" "t8"].

Definition auditResult : Cmd.BuildLogResult := Cmd.mkBuildLogResult "log1" 12 auditLog.

Definition demoStats : Syncer.SyncStats := Syncer.mkSyncStats 1 15 "success".

Definition updateOk (result : Cmd.BuildLogResult) (entries : list Cmd.BuildLogEntry)
    : Z + error := inl (Cmd.Version result + 1)%Z.
Definition createOk (entries : list Cmd.BuildLogEntry) : (string * Z) + error :=
  inl ("log1"%string, 1%Z).

(** An environment with the required variables and unusable optional ones. *)
Definition badOptionals (key : string) : string :=
  if String.eqb key "CONTENTFUL_SPACE_ID" then "space"
  else if String.eqb key "CONTENTFUL_CMA_TOKEN" then "cma"
  else if String.eqb key "CONTENTFUL_ENTRY_ID" then "projects"
  else if String.eqb key "GEMINI_API_KEY" then "key"
  else if String.eqb key "MAX_FEATURED" then "five"
  else if String.eqb key "MAX_PROJECTS" then "1e3"
  else if String.eqb key "FORCE_UPDATE" then "yes"
  else "".

Definition demoProject (name : string) (pushedAt : Z) (featured : bool)
    : Contentful.Project :=
  Contentful.mkProject name name "" "" "" "" [] [] featured "" "" pushedAt.

Definition demoProjects : list Contentful.Project :=
  [demoProject "old" 100 true; demoProject "new" 300 false;
   demoProject "mid" 200 false; demoProject "mid2" 200 true].

(** The result of reading [brokenEntry], the update of it against the
    conflicting store, and the request that update sends. *)
Definition demoResult : Contentful.ProjectsResult :=
  Contentful.mkProjectsResult [] "6Xy" 7 (Contentful.Fields brokenEntry).

Definition demoUpdate : Contentful.UpdateRun :=
  Contentful.UpdateProjects "https://api.contentful.com" "space" "token"
    marshalBody newRequestError conflictStore decodeEntryItem
    demoResult demoProjects.

Definition demoRequest : Contentful.Request :=
  Contentful.mkRequest "PUT"
    "https://api.contentful.com/spaces/space/environments/master/entries/6Xy"
    (Contentful.updateHeader "token" demoResult)
    "fields:2".

(** An environment that asks for a negative number of projects. *)
Definition negativeMax (key : string) : string :=
  if String.eqb key "MAX_PROJECTS" then "-1" else badOptionals key.

(** A service that is rate-limited once and then answers. *)
Definition answersSecond (attempt : nat) (userPrompt : string) : Enricher.Generated :=
  match attempt with
  | O => Enricher.mkGenerated "" (Some "googleapi: Error 429: quota"%string)
  | _ => Enricher.mkGenerated "[tool]" None
  end.

(** A service that is rate-limited once and then answers with no text. *)
Definition emptySecond (attempt : nat) (userPrompt : string) : Enricher.Generated :=
  match attempt with
  | O => Enricher.mkGenerated "" (Some "googleapi: Error 429: quota"%string)
  | _ => Enricher.mkGenerated "" None
  end.

(** A context that is cancelled during the first backoff wait. *)
Definition doneAtFirstWait (attempt : nat) : option error :=
  match attempt with
  | 1 => Some "context canceled"%string
  | _ => None
  end.

(** A project whose readme has 1502 bytes. *)
Definition rawLong : Mapper.RawProject :=
  Mapper.mkRawProject "long" "long" "https://github.com/u/long" "" []
    (String.concat "" (repeat "ab"%string 751)) 1 1.

(** A store that answers every request with status 200: a list of two
    entries to a query, an updated entry to a write. *)
Definition okStore (req : Contentful.Request) : Contentful.Response + error :=
  if String.eqb (Contentful.Method req) "GET"
  then inl (Contentful.mkResponse 200 (inl "items"%string))
  else inl (Contentful.mkResponse 200 (inl "updated"%string)).

(** A store that knows nothing. *)
Definition notFoundStore (req : Contentful.Request) : Contentful.Response + error :=
  inl (Contentful.mkResponse 404 (inl "NotFound"%string)).

Definition decodeUpdated (body : string) : Contentful.EntryItem + error :=
  if String.eqb body "updated"
  then inl (Contentful.mkEntryItem (Contentful.Sys.mkSys "6Xy" 8) ∅)
  else inr "unexpected end of JSON input"%string.

Definition decodeItems (body : string) : list Contentful.EntryItem + error :=
  if String.eqb body "items" then inl [freshEntry; brokenEntry]
  else inr "unexpected end of JSON input"%string.

Definition encodePairs (params : list (string * string)) : string :=
  Enricher.Join (map (fun kv => fst kv +:+ "=" +:+ snd kv) params) "&".

Definition quoted (s : string) : string :=
  String (ascii_of_nat 34) s +:+ String (ascii_of_nat 34) "".

(** A locale map with a German and an English entry. *)
Definition twoLocales : list (string * Contentful.value) :=
  [("de-DE"%string, Contentful.VArr [Contentful.VNil]); ("en-US"%string, Contentful.VNil)].

Definition forkRepo : Github.Repo :=
  Github.mkRepo "linux" "https://github.com/u/linux" None 90 500 true false.

(** The state in which the run [secondFirst] over [repoA] and [repoB]
    ends. *)
Definition fetchedAB : Syncer.State :=
  Syncer.mkState [] [] []
    [Mapper.mkRawProject "beta" "beta" "https://github.com/u/beta"
       "https://beta.dev" ["Go"; "C"] "" 20 200;
     Mapper.mkRawProject "alpha" "alpha" "https://github.com/u/alpha"
       "" [] "# alpha" 10 100]
    None.

(** A world in which the listing is given, the model answers with one
    entry, the entry is found through the fallback query and every store
    call succeeds. *)
Definition worldWith (listing : list Github.Repo + error) : Pipeline.World :=
  {| Pipeline.ToLower := GoStrings.asciiToLower;
     Pipeline.TrimSpace := TrimSpace;
     Pipeline.ListRepos := listing;
     Pipeline.fetched := fetchedAB;
     Pipeline.marshalEntries := marshalEntries;
     Pipeline.GenerateContent := answerShort;
     Pipeline.ctxDone := neverDone;
     Pipeline.unmarshalData := unmarshalData;
     Pipeline.decodeProjects := Contentful.RefDecoder.decode;
     Pipeline.CMABaseURL := "https://api.contentful.com";
     Pipeline.marshalBody := marshalBody;
     Pipeline.newRequestError := newRequestError;
     Pipeline.httpDo := okStore;
     Pipeline.decodeEntryItem := decodeUpdated;
     Pipeline.encodeQuery := encodePairs;
     Pipeline.decodeEntries := decodeItems;
     Pipeline.quote := quoted;
     Pipeline.GetEntry := fun _ => inr "404 Not Found"%string;
     Pipeline.PublishEntry := fun _ _ => None;
     Pipeline.githubActions := "true";
     Pipeline.now := "t9";
     Pipeline.GetBuildLog := inl auditResult;
     Pipeline.createBuildLog := createOk;
     Pipeline.updateBuildLog := updateOk |}.

Definition world : Pipeline.World := worldWith (inl [repoA; forkRepo; repoB]).
Definition worldOfForks : Pipeline.World := worldWith (inl [forkRepo]).

(** The configuration loaded from [badOptionals], and the one that asks
    for a negative number of projects. *)
Definition config : Config.Config :=
  Config.mkConfig "alberto-moreno-sa" "" "space" "cma" "projects" "key" 5 15 false.
Definition negativeConfig : Config.Config :=
  Config.mkConfig "alberto-moreno-sa" "" "space" "cma" "projects" "key" 5 (-1) false.



(** A model that answers at once with the JSON value null. *)
Definition answersNull (attempt : nat) (userPrompt : string) : Enricher.Generated :=
  Enricher.mkGenerated "null" None.

(** A store whose update is refused. *)
Definition updateRefused (result : Cmd.BuildLogResult)
    (entries : list Cmd.BuildLogEntry) : Z + error :=
  inr "409 Conflict"%string.

End Demo.

(** * Properties *)

(** ** Strings *)

Module GoStringsFacts.
Import GoStrings.

Lemma HasPrefix_app (p t : string) : HasPrefix (p +:+ t) p = true.
Proof.
  induction p as [|c p IH]; simpl; [reflexivity|].
  rewrite Ascii.eqb_refl. exact IH.
Qed.

Lemma Contains_here (p t : string) : Contains (p +:+ t) p = true.
Proof.
  destruct p as [|c p].
  - destruct t; reflexivity.
  - simpl. rewrite Ascii.eqb_refl, HasPrefix_app. reflexivity.
Qed.

Lemma Contains_app_r (a s sub : string) :
  Contains s sub = true -> Contains (a +:+ s) sub = true.
Proof.
  intros H. induction a as [|c a IH]; simpl; [exact H|].
  rewrite IH. apply orb_true_r.
Qed.

(** Any text of the form [a ++ sub ++ b] contains [sub]. *)
Lemma Contains_middle (a sub b : string) :
  Contains (a +:+ sub +:+ b) sub = true.
Proof. apply Contains_app_r, Contains_here. Qed.

Lemma append_empty_r (s : string) : s +:+ "" = s.
Proof.
  induction s as [|c s IH]; [reflexivity|].
  change (String c (s +:+ "") = String c s). by rewrite IH.
Qed.

Lemma Contains_end (a sub : string) : Contains (a +:+ sub) sub = true.
Proof.
  apply Contains_app_r.
  rewrite <- (append_empty_r sub) at 1. apply Contains_here.
Qed.

End GoStringsFacts.

(** ** Sorting *)

Section InsertionSortFacts.
Context {A : Type} (less : A -> A -> bool).

Lemma insertBy_perm x l : Permutation (insertBy less x l) (x :: l).
Proof.
  induction l as [|y l IH]; simpl; [reflexivity|].
  destruct (less y x); [|reflexivity].
  rewrite IH. apply perm_swap.
Qed.

Lemma insertionSort_perm l : Permutation (insertionSort less l) l.
Proof.
  induction l as [|x l IH]; simpl; [reflexivity|].
  rewrite insertBy_perm. by constructor.
Qed.

Hypothesis Hsw : strict_weak less.

Lemma insertBy_sorted x l :
  StronglySorted (fun a b => less b a = false) l ->
  StronglySorted (fun a b => less b a = false) (insertBy less x l).
Proof.
  destruct Hsw as (Hirr & Htr & Hneg).
  induction 1 as [|y l Hs IH Hall]; simpl.
  - repeat constructor.
  - destruct (less y x) eqn:Hyx.
    + constructor; [exact IH|].
      rewrite (Forall_forall (fun b => less b y = false) (insertBy less x l)).
      intros z Hz.
      rewrite insertBy_perm in Hz. apply elem_of_cons in Hz.
      destruct Hz as [->|Hz].
      * destruct (less x y) eqn:Hxy; [|reflexivity].
        rewrite <- (Hirr y). symmetry. by apply (Htr y x y).
      * by apply (proj1 (Forall_forall _ _) Hall).
    + constructor; [by constructor|].
      constructor; [exact Hyx|].
      apply (Forall_impl _ _ _ Hall); intros z Hz.
      by apply (Hneg z y x).
Qed.

Lemma insertionSort_sorted l :
  StronglySorted (fun a b => less b a = false) (insertionSort less l).
Proof.
  induction l as [|x l IH]; simpl; [constructor|].
  by apply insertBy_sorted.
Qed.

End InsertionSortFacts.

Definition insertionSorter : SliceSorter :=
  {| sortSlice := fun A less l => insertionSort less l;
     sortSlice_perm := fun A less l => insertionSort_perm less l;
     sortSlice_sorted := fun A less l H => insertionSort_sorted less H l |}.

(** ** Entity filter *)

Module MapperFacts.
Import Github Mapper.

Section Filter.
Variable ToLower : string -> string.

Lemma filterStep_filter username acc r :
  filterStep ToLower (ToLower username) acc r =
  acc ++ List.filter (survives ToLower username) [r].
Proof.
  unfold filterStep, survives. simpl.
  destruct (Fork r), (Archived r); simpl; rewrite ?app_nil_r; try reflexivity.
  destruct (String.eqb _ _); simpl; by rewrite ?app_nil_r.
Qed.

Lemma fold_filterStep username repos acc :
  fold_left (filterStep ToLower (ToLower username)) repos acc =
  acc ++ List.filter (survives ToLower username) repos.
Proof.
  revert acc. induction repos as [|r repos IH]; intros acc; simpl.
  - by rewrite app_nil_r.
  - rewrite IH, filterStep_filter. simpl.
    destruct (survives ToLower username r); simpl;
      by rewrite <- ?app_assoc, ?app_nil_r.
Qed.

Lemma FilterRepos_filter repos username :
  FilterRepos ToLower repos username =
  List.filter (survives ToLower username) repos.
Proof. unfold FilterRepos. by rewrite fold_filterStep. Qed.

(** C6. For every list of repos and every owner name, [FilterRepos] emits
    no fork, no archived repo and no repo whose lowered name equals the
    lowered owner name; its output is a subsequence of the input, in input
    order, made of exactly the repos that survive. *)
Theorem FilterRepos_spec (repos : list Repo) (username : string) :
  let out := FilterRepos ToLower repos username in
  Forall (fun r => Fork r = false /\ Archived r = false /\
                   ToLower (Github.Name r) <> ToLower username) out /\
  sublist out repos /\
  out = List.filter (survives ToLower username) repos /\
  (forall r, r ∈ out <->
     r ∈ repos /\ Fork r = false /\ Archived r = false /\
     ToLower (Github.Name r) <> ToLower username).
Proof.
  cbv zeta. rewrite FilterRepos_filter.
  assert (Hsurv : forall r, survives ToLower username r = true <->
            Fork r = false /\ Archived r = false /\
            ToLower (Github.Name r) <> ToLower username).
  { intros r. unfold survives.
    rewrite !andb_true_iff, !negb_true_iff, String.eqb_neq. tauto. }
  assert (Hin : forall r, r ∈ List.filter (survives ToLower username) repos <->
            r ∈ repos /\ survives ToLower username r = true).
  { intros r. rewrite !list_elem_of_In. apply filter_In. }
  split; [|split; [|split]].
  - apply Forall_forall. intros r Hr. apply Hsurv, Hin, Hr.
  - induction repos as [|r l IH]; simpl; [constructor|].
    destruct (survives ToLower username r).
    + apply sublist_skip, IH. intros r'. rewrite !list_elem_of_In. apply filter_In.
    + apply sublist_cons, IH. intros r'. rewrite !list_elem_of_In. apply filter_In.
  - reflexivity.
  - intros r. rewrite Hin, Hsurv. tauto.
Qed.

End Filter.

(** A run on four repos: a fork, an archived repo, the profile repo in
    another letter case, and one survivor. *)
Example FilterRepos_run :
  let fork := mkRepo "a" "u/a" None 1 10 true false in
  let arch := mkRepo "b" "u/b" None 1 20 false true in
  let prof := mkRepo "Alice" "u/Alice" None 1 30 false false in
  let keep := mkRepo "tool" "u/tool" None 1 40 false false in
  FilterRepos GoStrings.asciiToLower [fork; keep; arch; prof; keep] "aLICE"
  = [keep; keep].
Proof. reflexivity. Qed.

End MapperFacts.

(** ** Batch enricher *)

Module EnricherFacts.
Import GoStrings Enricher.

(** The matching loop pairs the inputs with the parsed entries position by
    position and stops at the shorter of the two. *)
Lemma fold_matchStep dataList projects i acc :
  fold_left (matchStep dataList) projects (i, acc) =
  (i + length projects,
   acc ++ zip_with enrichedProject projects (drop i dataList)).
Proof.
  revert i acc. induction projects as [|raw projects IH]; intros i acc; simpl.
  - f_equal; [lia|]. by rewrite app_nil_r.
  - destruct (dataList !! i) as [data|] eqn:Hi.
    + rewrite IH, (drop_S _ _ _ Hi). simpl.
      rewrite <- app_assoc. f_equal. lia.
    + rewrite IH. apply lookup_ge_None in Hi.
      rewrite !drop_ge by lia.
      f_equal; [lia|]. by destruct projects.
Qed.

Lemma matchByPosition_zip projects dataList :
  matchByPosition projects dataList = zip_with enrichedProject projects dataList.
Proof. unfold matchByPosition. by rewrite fold_matchStep. Qed.

Lemma matchByPosition_length projects dataList :
  length (matchByPosition projects dataList) =
  Nat.min (length projects) (length dataList).
Proof. rewrite matchByPosition_zip. apply length_zip_with. Qed.

Lemma matchByPosition_lookup projects dataList i raw data :
  projects !! i = Some raw -> dataList !! i = Some data ->
  matchByPosition projects dataList !! i = Some (enrichedProject raw data).
Proof.
  intros Hr Hd. rewrite matchByPosition_zip, lookup_zip_with, Hr. simpl.
  by rewrite Hd.
Qed.

Lemma matchByPosition_take projects dataList :
  matchByPosition projects dataList =
  matchByPosition projects (take (length projects) dataList).
Proof.
  rewrite !matchByPosition_zip.
  revert dataList. induction projects as [|raw projects IH]; intros [|d ds];
    simpl; try reflexivity.
  f_equal. apply IH.
Qed.

Section WithServices.
Variable TrimSpace : string -> string.
Variable marshalEntries : list repoEntry -> string + error.
Variable GenerateContent : nat -> string -> Generated.
Variable ctxDone : nat -> option error.
Variable unmarshalData : string -> list enrichedData + error.

Local Abbreviation retryLoop := (retryLoop GenerateContent ctxDone).
Local Abbreviation Enrich :=
  (Enrich TrimSpace marshalEntries GenerateContent ctxDone unmarshalData).
Local Abbreviation stripMarkdownFences := (stripMarkdownFences TrimSpace).
Local Abbreviation buildBatchPrompt := (buildBatchPrompt marshalEntries).

(** When [Enrich] returns a list, that list is the positional match of the
    input with the array parsed from the response the retry loop ended with. *)
Lemma Enrich_returns projects out :
  enriched (Enrich projects) = Some out ->
  exists response lastErr dataList,
    snd (retryLoop (buildBatchPrompt projects) (maxRetries + 1) 0 "" None)
      = Left response lastErr /\
    unmarshalData (stripMarkdownFences response) = inl dataList /\
    out = matchByPosition projects dataList /\
    enrichErr (Enrich projects) = None.
Proof.
  unfold Enricher.Enrich.
  destruct (retryLoop _ _ _ _ _) as [n [err|response lastErr]]; simpl;
    [discriminate|].
  destruct (if String.eqb response "" then lastErr else None); simpl;
    [discriminate|].
  destruct (unmarshalData _) as [dataList|err] eqn:Hparse; simpl;
    [|discriminate].
  intros [= <-]. by exists response, lastErr, dataList.
Qed.

(** C1. Whenever [Enrich] returns a list [out] for an input of length [n],
    the response parsed into an array [dataList] of some length [m], and:
    if [m <= n] then [out] has length [m]; if [n <= m] then [out] has length
    [n] and is what the first [n] parsed entries alone would give; and at
    every position below both lengths [out] holds the project built from
    the input and the parsed entry at that position: slug, GitHub URL and
    pushed-at time of the input, generated fields of the entry, not
    featured. *)
Theorem Enrich_positional (projects : list Mapper.RawProject)
    (out : list Contentful.Project) :
  enriched (Enrich projects) = Some out ->
  exists response dataList,
    unmarshalData (stripMarkdownFences response) = inl dataList /\
    let n := length projects in
    let m := length dataList in
    (m <= n -> length out = m) /\
    (n <= m -> length out = n /\
               out = matchByPosition projects (take n dataList)) /\
    (forall i raw data,
        projects !! i = Some raw -> dataList !! i = Some data ->
        exists p, out !! i = Some p /\
          Contentful.Slug p = Mapper.Slug raw /\
          Contentful.GithubURL p = Mapper.GitHubURL raw /\
          Contentful.PushedAt p = Mapper.PushedAt raw /\
          Contentful.Featured p = false /\
          Contentful.Name p = Name data /\
          Contentful.ShortDescription p = ShortDescription data /\
          Contentful.Description p = Description data /\
          Contentful.LongDescription p = LongDescription data /\
          Contentful.Technologies p = Technologies data /\
          Contentful.Highlights p = Highlights data /\
          Contentful.Category p = Category data /\
          Contentful.Gradient p = Gradient data).
Proof.
  intros Hout.
  destruct (Enrich_returns _ _ Hout) as (response & lastErr & dataList & _ & Hparse & -> & _).
  exists response, dataList. split; [exact Hparse|]. cbv zeta.
  rewrite matchByPosition_length. repeat split.
  - lia.
  - lia.
  - apply matchByPosition_take.
  - intros i raw data Hr Hd. exists (enrichedProject raw data).
    split; [by apply matchByPosition_lookup|]. by repeat split.
Qed.

(** *** The retry loop *)

Lemma retryLoop_calls_le userPrompt remaining attempt response lastErr :
  fst (retryLoop userPrompt remaining attempt response lastErr) <= remaining.
Proof.
  revert attempt response lastErr.
  induction remaining as [|remaining IH]; intros attempt response lastErr;
    simpl; [lia|].
  destruct (if Nat.ltb 0 attempt then ctxDone attempt else None); simpl; [lia|].
  destruct (genErr _) as [err|]; simpl; [|lia].
  destruct (negb _ && negb _); simpl; [lia|].
  specialize (IH (S attempt) (text (GenerateContent attempt userPrompt)) (Some err)).
  destruct (retryLoop _ _ _ _ _) as [n exit]. simpl in *. lia.
Qed.

Lemma Enrich_calls projects :
  calls (Enrich projects) =
  fst (retryLoop (buildBatchPrompt projects) (maxRetries + 1) 0 "" None).
Proof.
  unfold Enricher.Enrich.
  destruct (retryLoop _ _ _ _ _) as [n [err|response lastErr]]; simpl;
    [reflexivity|].
  destruct (if String.eqb response "" then lastErr else None); simpl;
    [reflexivity|].
  by destruct (unmarshalData _).
Qed.

Lemma retryLoop_again userPrompt remaining attempt response lastErr err :
  ctxDone attempt = None ->
  genErr (GenerateContent attempt userPrompt) = Some err ->
  isRateLimit err = true ->
  retryLoop userPrompt (S remaining) attempt response lastErr =
  let '(n, exit) :=
    retryLoop userPrompt remaining (S attempt)
      (text (GenerateContent attempt userPrompt)) (Some err) in
  (S n, exit).
Proof.
  intros Hctx He Hm. cbn [Enricher.retryLoop]. rewrite Hctx.
  assert (Hno : (if Nat.ltb 0 attempt then None else None) = @None error)
    by (by destruct (Nat.ltb 0 attempt)).
  rewrite Hno, He. unfold isRateLimit in Hm.
  by rewrite <- negb_orb, Hm.
Qed.

Lemma retryLoop_rate_limited userPrompt errs remaining attempt response lastErr :
  (forall k, ctxDone k = None) ->
  (forall k, rateLimited (GenerateContent k userPrompt) (errs k)) ->
  retryLoop userPrompt (S remaining) attempt response lastErr =
  (S remaining, Left "" (Some (errs (attempt + remaining)))).
Proof.
  intros Hctx Hrl. revert attempt response lastErr.
  induction remaining as [|remaining IH]; intros attempt response lastErr;
    destruct (Hrl attempt) as (Ht & He & Hm);
    rewrite (retryLoop_again _ _ _ _ _ _ (Hctx attempt) He Hm), Ht.
  - simpl. by replace (attempt + 0) with attempt by lia.
  - rewrite IH. by replace (S attempt + remaining) with (attempt + S remaining) by lia.
Qed.

Lemma retryLoop_fatal userPrompt k err :
  forall remaining attempt response lastErr,
  k < remaining ->
  (forall j, j <= k -> ctxDone (attempt + j) = None) ->
  (forall j, j < k -> exists e,
      genErr (GenerateContent (attempt + j) userPrompt) = Some e /\
      isRateLimit e = true) ->
  genErr (GenerateContent (attempt + k) userPrompt) = Some err ->
  isRateLimit err = false ->
  retryLoop userPrompt remaining attempt response lastErr =
  (S k, Returned ("gemini: " +:+ err)).
Proof.
  induction k as [|k IH]; intros remaining attempt response lastErr Hk Hctx Hrl He Hm.
  - destruct remaining as [|remaining]; [lia|].
    cbn [Enricher.retryLoop].
    specialize (Hctx 0 (Nat.le_refl 0)).
    replace (attempt + 0) with attempt in * by lia. rewrite Hctx.
    assert (Hno : (if Nat.ltb 0 attempt then None else None) = @None error)
      by (by destruct (Nat.ltb 0 attempt)).
    rewrite Hno, He. unfold isRateLimit in Hm.
    by rewrite <- negb_orb, Hm.
  - destruct remaining as [|remaining]; [lia|].
    cbn [Enricher.retryLoop].
    assert (H0 := Hctx 0 (Nat.le_0_l _)).
    replace (attempt + 0) with attempt in H0 by lia. rewrite H0.
    assert (Hno : (if Nat.ltb 0 attempt then None else None) = @None error)
      by (by destruct (Nat.ltb 0 attempt)).
    rewrite Hno.
    destruct (Hrl 0 (Nat.lt_0_succ _)) as (e & Hge & Hme).
    replace (attempt + 0) with attempt in Hge by lia. rewrite Hge.
    unfold isRateLimit in Hme. rewrite <- negb_orb, Hme. cbn [negb].
    rewrite (IH remaining (S attempt)); [reflexivity|lia|..].
    + intros j Hj. replace (S attempt + j) with (attempt + S j) by lia.
      apply Hctx. lia.
    + intros j Hj. replace (S attempt + j) with (attempt + S j) by lia.
      apply Hrl. lia.
    + by replace (S attempt + k) with (attempt + S k) by lia.
    + exact Hm.
Qed.

(** C3. [Enrich] never makes more than [maxRetries + 1 = 4] generation
    calls.  When every call fails with a rate-limit error and the context
    stays live, it makes exactly 4 calls and fails with the message
    ["gemini after 3 retries: "] followed by the last error.  When the call
    at attempt [k] fails with an error that does not signal rate-limiting
    (the earlier ones having been rate-limited), it fails at once with
    ["gemini: "] followed by that error, after exactly [k + 1] calls. *)
Theorem Enrich_retry (projects : list Mapper.RawProject) :
  let userPrompt := buildBatchPrompt projects in
  calls (Enrich projects) <= maxRetries + 1 /\
  maxRetries + 1 = 4 /\
  (forall errs,
      (forall k, ctxDone k = None) ->
      (forall k, rateLimited (GenerateContent k userPrompt) (errs k)) ->
      Enrich projects =
        mkEnrichRun 4 None
          (Some ("gemini after " +:+ itoa (Z.of_nat maxRetries) +:+ " retries: "
                   +:+ errs maxRetries)) /\
      itoa (Z.of_nat maxRetries) = "3"%string) /\
  (forall k err,
      k <= maxRetries ->
      (forall j, j <= k -> ctxDone j = None) ->
      (forall j, j < k -> exists e,
          genErr (GenerateContent j userPrompt) = Some e /\ isRateLimit e = true) ->
      genErr (GenerateContent k userPrompt) = Some err ->
      isRateLimit err = false ->
      Enrich projects = mkEnrichRun (S k) None (Some ("gemini: " +:+ err))).
Proof.
  cbv zeta. split; [|split; [reflexivity|split]].
  - rewrite Enrich_calls. apply retryLoop_calls_le.
  - intros errs Hctx Hrl. split; [|reflexivity].
    unfold Enricher.Enrich.
    change (maxRetries + 1) with (S maxRetries).
    rewrite (retryLoop_rate_limited _ errs) by assumption.
    reflexivity.
  - intros k err Hk Hctx Hrl He Hm.
    unfold Enricher.Enrich.
    rewrite (retryLoop_fatal _ k err); try assumption; [reflexivity|..].
    unfold maxRetries in *. lia.
Qed.

End WithServices.

Lemma Enrich_positional_witness :
  enriched (Enrich Demo.TrimSpace Demo.marshalEntries Demo.answerShort
              Demo.neverDone Demo.unmarshalData [Demo.rawTool; Demo.rawSite])
    = Some [enrichedProject Demo.rawTool Demo.dataTool] /\
  exists response dataList,
    Demo.unmarshalData (stripMarkdownFences Demo.TrimSpace response) = inl dataList /\
    (length dataList <= 2 -> 1 = length dataList).
Proof.
  split; [reflexivity|].
  destruct (Enrich_positional Demo.TrimSpace Demo.marshalEntries Demo.answerShort
              Demo.neverDone Demo.unmarshalData [Demo.rawTool; Demo.rawSite]
              [enrichedProject Demo.rawTool Demo.dataTool] eq_refl)
    as (response & dataList & Hparse & Hshort & _).
  exists response, dataList. split; [exact Hparse|exact Hshort].
Defined.

Lemma Enrich_retry_witness :
  Enrich Demo.TrimSpace Demo.marshalEntries Demo.alwaysRateLimited
    Demo.neverDone Demo.unmarshalData [Demo.rawTool]
  = mkEnrichRun 4 None
      (Some "gemini after 3 retries: googleapi: Error 429: RESOURCE_EXHAUSTED"%string) /\
  Enrich Demo.TrimSpace Demo.marshalEntries Demo.rateLimitedThenDenied
    Demo.neverDone Demo.unmarshalData [Demo.rawTool]
  = mkEnrichRun 2 None
      (Some "gemini: googleapi: Error 403: API key not valid"%string).
Proof.
  split.
  - apply (proj1 (proj2 (proj2 (Enrich_retry Demo.TrimSpace Demo.marshalEntries
             Demo.alwaysRateLimited Demo.neverDone Demo.unmarshalData [Demo.rawTool])))
             (fun _ => "googleapi: Error 429: RESOURCE_EXHAUSTED"%string)).
    + intros k. reflexivity.
    + intros k. repeat split.
  - apply (proj2 (proj2 (proj2 (Enrich_retry Demo.TrimSpace Demo.marshalEntries
             Demo.rateLimitedThenDenied Demo.neverDone Demo.unmarshalData [Demo.rawTool])))
             1 "googleapi: Error 403: API key not valid"%string).
    + unfold maxRetries. lia.
    + intros j _. reflexivity.
    + intros j Hj. assert (j = 0) as -> by lia.
      exists "googleapi: Error 429: quota"%string. split; reflexivity.
    + reflexivity.
    + reflexivity.
Defined.

(** Three parsed entries for two inputs: the third is ignored. *)
Example matchByPosition_longer :
  matchByPosition [Demo.rawTool; Demo.rawSite]
    [Demo.dataTool; Demo.dataSite; Demo.dataExtra]
  = [enrichedProject Demo.rawTool Demo.dataTool;
     enrichedProject Demo.rawSite Demo.dataSite].
Proof. reflexivity. Qed.

End EnricherFacts.

(** ** Selection heuristic *)

Module HeuristicFacts.
Import Contentful Heuristic.

Lemma after_strict_weak : strict_weak after.
Proof.
  unfold after. repeat split; intros *; rewrite ?Z.ltb_lt, ?Z.ltb_ge; lia.
Qed.

Lemma StronglySorted_lookup {A} (R : A -> A -> Prop) (l : list A) i j a b :
  StronglySorted R l -> i < j -> l !! i = Some a -> l !! j = Some b -> R a b.
Proof.
  intros Hs. revert i j. induction Hs as [|x l Hs IH Hall]; intros i j Hij Hi Hj.
  - by rewrite lookup_nil in Hi.
  - destruct j as [|j]; [lia|]. destruct i as [|i]; simpl in *.
    + injection Hi as <-.
      apply (proj1 (Forall_forall _ _) Hall).
      by apply list_elem_of_lookup_2 with j.
    + apply (IH i j); [lia|done..].
Qed.

Lemma take_min_length {A} (l : list A) n :
  take (Nat.min n (length l)) l = take n l.
Proof.
  destruct (Nat.le_ge_cases n (length l)) as [H|H].
  - by rewrite Nat.min_l.
  - rewrite Nat.min_r by exact H. by rewrite !take_ge.
Qed.

Lemma unflag_setFeatured p b : unflag (setFeatured p b) = unflag p.
Proof. reflexivity. Qed.

Lemma setFeatured_same p : setFeatured p (Featured p) = p.
Proof. by destruct p. Qed.

Lemma count_marked maxFeatured l o :
  length (List.filter Featured (imap (fun i => mark maxFeatured (o + i)) l)) =
  Nat.min (Z.to_nat maxFeatured - o) (length l).
Proof.
  revert o. induction l as [|p l IH]; intros o.
  - simpl. lia.
  - rewrite imap_cons.
    rewrite (imap_ext _ (fun i => mark maxFeatured (S o + i))); last first.
    { intros i x _. simpl. by replace (o + S i) with (S (o + i)) by lia. }
    cbn [List.filter mark setFeatured Featured].
    destruct (Z.of_nat (o + 0) <? maxFeatured)%Z eqn:Hlt; cbn [length];
      rewrite IH.
    + apply Z.ltb_lt in Hlt. lia.
    + apply Z.ltb_ge in Hlt. lia.
Qed.

Section WithSort.
Context {sorter : SliceSorter}.

(** For a non-negative [maxTotal] the slice expression does not panic and
    both branches of the length test keep the first [maxTotal] entries. *)
Lemma ApplyFeatured_nonneg projects maxFeatured maxTotal :
  (0 <= maxTotal)%Z ->
  ApplyFeatured projects maxFeatured maxTotal =
  Some (imap (mark maxFeatured) (take (Z.to_nat maxTotal) (sortSlice after projects))).
Proof.
  intros HN. unfold ApplyFeatured.
  destruct (maxTotal <? Z.of_nat (length (sortSlice after projects)))%Z eqn:Hlen.
  - apply Z.ltb_ge in HN. by rewrite HN.
  - apply Z.ltb_ge in Hlen. rewrite take_ge by lia. reflexivity.
Qed.

Lemma ApplyFeatured_negative projects maxFeatured maxTotal :
  (maxTotal < 0)%Z -> ApplyFeatured projects maxFeatured maxTotal = None.
Proof.
  intros HN. unfold ApplyFeatured.
  assert (H1 : (maxTotal <? Z.of_nat (length (sortSlice after projects)))%Z = true)
    by (apply Z.ltb_lt; lia).
  apply Z.ltb_lt in HN. by rewrite H1, HN.
Qed.

Lemma ApplyFeatured_Some projects maxFeatured maxTotal out :
  ApplyFeatured projects maxFeatured maxTotal = Some out ->
  (0 <= maxTotal)%Z /\
  out = imap (mark maxFeatured) (take (Z.to_nat maxTotal) (sortSlice after projects)).
Proof.
  intros H. destruct (Z.le_gt_cases 0 maxTotal) as [HN|HN].
  - split; [exact HN|]. rewrite ApplyFeatured_nonneg in H by exact HN. congruence.
  - rewrite ApplyFeatured_negative in H by lia. discriminate.
Qed.

(** C2. For [0 <= K <= N], [ApplyFeatured] returns a list of length
    [min(N_raw, N)], in which a later entry is never more recent than an
    earlier one, in which the entry at index [i] is featured exactly when
    [i < K], and which therefore has exactly [min(K, length)] featured
    entries. *)
Theorem ApplyFeatured_spec (projects : list Project) (K N : Z) :
  (0 <= K <= N)%Z ->
  exists out,
    ApplyFeatured projects K N = Some out /\
    Z.of_nat (length out) = Z.min (Z.of_nat (length projects)) N /\
    (forall i j p q, i < j -> out !! i = Some p -> out !! j = Some q ->
       (PushedAt q <= PushedAt p)%Z) /\
    (forall i p, out !! i = Some p -> (Featured p = true <-> (Z.of_nat i < K)%Z)) /\
    Z.of_nat (length (List.filter Featured out)) = Z.min K (Z.of_nat (length out)).
Proof.
  intros HK. eexists. split; [apply ApplyFeatured_nonneg; lia|].
  assert (Hperm := sortSlice_perm _ after projects).
  assert (Hsorted := sortSlice_sorted _ after projects after_strict_weak).
  assert (Hlen : length (sortSlice after projects) = length projects)
    by (by rewrite Hperm).
  repeat split.
  - rewrite length_imap, length_take, Hlen. lia.
  - intros i j p q Hij Hi Hj.
    rewrite list_lookup_imap in Hi, Hj.
    destruct (take _ _ !! i) as [p0|] eqn:Hi0; [|discriminate].
    destruct (take _ _ !! j) as [q0|] eqn:Hj0; [|discriminate].
    injection Hi as <-. injection Hj as <-.
    apply lookup_take_Some in Hi0 as [Hi0 _].
    apply lookup_take_Some in Hj0 as [Hj0 _].
    assert (H := StronglySorted_lookup _ _ i j p0 q0 Hsorted Hij Hi0 Hj0).
    unfold after in H. apply Z.ltb_ge in H. exact H.
  - intros Hf. rewrite list_lookup_imap in H.
    destruct (take _ _ !! i) as [p0|]; [|discriminate].
    injection H as <-. simpl in Hf. by apply Z.ltb_lt.
  - intros Hi. rewrite list_lookup_imap in H.
    destruct (take _ _ !! i) as [p0|]; [|discriminate].
    injection H as <-. simpl. by apply Z.ltb_lt.
  - rewrite (imap_ext _ (fun i => mark K (0 + i))) by done.
    rewrite count_marked, length_imap, length_take, Hlen. lia.
Qed.

(** C9. Every entry of the list returned by [ApplyFeatured] is an entry of
    the input with at most its featured flag changed, and the returned list
    is, up to the featured flag, a prefix of a rearrangement of the input. *)
Theorem ApplyFeatured_frame (projects : list Project) (K N : Z)
    (out : list Project) :
  ApplyFeatured projects K N = Some out ->
  (forall p, p ∈ out ->
     exists q, q ∈ projects /\ p = setFeatured q (Featured p) /\
       Name p = Name q /\ Slug p = Slug q /\
       ShortDescription p = ShortDescription q /\
       Description p = Description q /\
       LongDescription p = LongDescription q /\
       GithubURL p = GithubURL q /\
       Technologies p = Technologies q /\
       Highlights p = Highlights q /\
       Category p = Category q /\
       Gradient p = Gradient q /\
       PushedAt p = PushedAt q) /\
  exists rearranged,
    Permutation rearranged projects /\
    map unflag out = map unflag (take (length out) rearranged).
Proof.
  intros H. apply ApplyFeatured_Some in H as [HN ->].
  assert (Hperm := sortSlice_perm _ after projects).
  split.
  - intros p Hp. apply elem_of_lookup_imap in Hp as (i & q & -> & Hq).
    exists q. split.
    + rewrite <- Hperm. apply list_elem_of_lookup_2 in Hq.
      by apply (subseteq_take (Z.to_nat N)).
    + by repeat split.
  - exists (sortSlice after projects). split; [exact Hperm|].
    rewrite length_imap, length_take, take_min_length.
    unfold mark. change (@map) with (@fmap list _).
    rewrite fmap_imap.
    rewrite (imap_ext _ (const unflag)) by done.
    by rewrite imap_const.
Qed.

End WithSort.

Example ApplyFeatured_run :
  @ApplyFeatured insertionSorter Demo.demoProjects 1 3 =
  Some [Demo.demoProject "new" 300 true; Demo.demoProject "mid" 200 false;
        Demo.demoProject "mid2" 200 false].
Proof. reflexivity. Qed.

Lemma ApplyFeatured_spec_witness :
  (0 <= 1 <= 3)%Z /\
  exists out,
    @ApplyFeatured insertionSorter Demo.demoProjects 1 3 = Some out /\
    Z.of_nat (length out) = Z.min (Z.of_nat (length Demo.demoProjects)) 3.
Proof.
  split; [lia|].
  destruct (@ApplyFeatured_spec insertionSorter Demo.demoProjects 1 3 ltac:(lia))
    as (out & Hout & Hlen & _).
  exists out. split; [exact Hout|exact Hlen].
Defined.

Lemma ApplyFeatured_frame_witness :
  @ApplyFeatured insertionSorter Demo.demoProjects 1 3 =
    Some [Demo.demoProject "new" 300 true; Demo.demoProject "mid" 200 false;
          Demo.demoProject "mid2" 200 false] /\
  exists rearranged,
    Permutation rearranged Demo.demoProjects /\
    map unflag [Demo.demoProject "new" 300 true; Demo.demoProject "mid" 200 false;
                Demo.demoProject "mid2" 200 false]
    = map unflag (take 3 rearranged).
Proof.
  split; [reflexivity|].
  exact (proj2 (@ApplyFeatured_frame insertionSorter Demo.demoProjects 1 3 _ eq_refl)).
Defined.

End HeuristicFacts.

(** ** Remote store client *)

Module ContentfulFacts.
Import GoStrings GoStringsFacts Contentful.

Section Client.
Variable decodeProjects : value -> Decode.
Variables CMABaseURL SpaceID Token : string.
Variable marshalBody : WriteBody -> string + error.
Variable newRequestError : string -> string -> option error.
Variable httpDo : Request -> Response + error.
Variable decodeEntryItem : string -> EntryItem + error.

Local Abbreviation GetProjects := (GetProjects decodeProjects).
Local Abbreviation UpdateProjects :=
  (UpdateProjects CMABaseURL SpaceID Token marshalBody newRequestError httpDo
     decodeEntryItem).

(** No container field: an empty collection with identity and version, and
    no error. *)
Lemma GetProjects_absent entry fallback :
  Fields entry !! "content"%string = None ->
  exists r, GetProjects (inl entry) fallback = (Some r, None) /\
            Projects r = [] /\ carries r entry /\ RawFields r = Fields entry.
Proof. intros H. unfold Contentful.GetProjects. rewrite H. by eexists. Qed.

(** A container that is not a locale map: an error, together with a result
    that carries identity and version. *)
Lemma GetProjects_not_wrapped entry fallback contentField :
  Fields entry !! "content"%string = Some contentField ->
  (forall localeMap, contentField <> VMap localeMap) ->
  exists r, GetProjects (inl entry) fallback =
              (Some r, Some "content field is not locale-wrapped"%string) /\
            carries r entry.
Proof.
  intros H Hn. unfold Contentful.GetProjects. rewrite H.
  destruct contentField; try (by eexists). by destruct (Hn entries).
Qed.

(** A locale map whose content does not decode: an error and no result at
    all, so neither identity nor version reaches the caller. *)
Lemma GetProjects_undecodable entry fallback localeMap rawContent err :
  Fields entry !! "content"%string = Some (VMap localeMap) ->
  rawContent = match mapIndex localeMap "en-US" with
               | Some v => v
               | None => rangeFirst localeMap
               end ->
  decodeProjects rawContent = UnmarshalError err ->
  GetProjects (inl entry) fallback = (None, Some ("unmarshal projects: " +:+ err)).
Proof.
  intros H -> Hd. unfold Contentful.GetProjects. rewrite H. by rewrite Hd.
Qed.

(** The copying loop rebuilds the map it ranges over. *)
Lemma copyFields_id (raw : gmap string value) : copyFields raw = raw.
Proof.
  unfold copyFields.
  apply (map_fold_weak_ind (fun r m => r = m)); [reflexivity|].
  by intros i x m r _ ->.
Qed.

Lemma updateFields_other result projects k :
  k <> "content"%string ->
  updateFields result projects !! k = RawFields result !! k.
Proof.
  intros Hk. unfold updateFields. cbv zeta.
  rewrite lookup_insert_ne by congruence. by rewrite copyFields_id.
Qed.

Lemma updateFields_content result projects :
  updateFields result projects !! "content"%string =
  Some (VMap [("en-US"%string, VProjects projects)]).
Proof. unfold updateFields. cbv zeta. apply lookup_insert_eq. Qed.

Lemma UpdateProjects_sent result projects req :
  sent (UpdateProjects result projects) = Some req ->
  marshalBody {| fields := updateFields result projects |} = inl (Body req) /\
  req = {| Method := "PUT"; URL := updateEndpoint CMABaseURL SpaceID result;
           Header := updateHeader Token result; Body := Body req |}.
Proof.
  unfold Contentful.UpdateProjects.
  destruct (marshalBody _) as [bodyBytes|err]; simpl; [|discriminate].
  destruct (newRequestError _ _); simpl; [discriminate|].
  destruct (httpDo _) as [resp|err]; simpl.
  - destruct (negb _); destruct (ReadAll resp); simpl;
      try destruct (decodeEntryItem _); simpl; by intros [= <-].
  - by intros [= <-].
Qed.

(** C5. The field map written by [UpdateProjects] agrees with the fields
    read before on every key other than ["content"], and maps ["content"]
    to the new collection under the locale key ["en-US"]; a request that is
    sent is a PUT whose body is the encoding of that map and whose
    [X-Contentful-Version] header is the version read before; and a
    response with a status other than 200 yields an error that contains the
    status code and, once read, the response body. *)
Theorem UpdateProjects_frame (result : ProjectsResult) (projects : list Project) :
  let run := UpdateProjects result projects in
  let written := updateFields result projects in
  (forall k, k <> "content"%string -> written !! k = RawFields result !! k) /\
  written !! "content"%string = Some (VMap [("en-US"%string, VProjects projects)]) /\
  (forall req, sent run = Some req ->
     Method req = "PUT"%string /\
     marshalBody {| fields := written |} = inl (Body req) /\
     Header req !! "X-Contentful-Version"%string
       = Some (itoa (Version result))) /\
  (forall req resp, sent run = Some req -> httpDo req = inl resp ->
     StatusCode resp <> 200%Z ->
     exists msg, updateErr run = Some msg /\
       Contains msg (itoa (StatusCode resp)) = true /\
       (forall respBody, ReadAll resp = inl respBody ->
          Contains msg respBody = true /\
          msg = "CMA update failed (" +:+ itoa (StatusCode resp) +:+ "): "
                  +:+ respBody)).
Proof.
  cbv zeta. split; [|split; [|split]].
  - intros k. apply updateFields_other.
  - apply updateFields_content.
  - intros req Hs. apply UpdateProjects_sent in Hs as [Hb ->].
    split; [reflexivity|split; [exact Hb|]]. simpl. unfold updateHeader.
    apply lookup_insert_eq.
  - intros req resp Hs Hdo Hst.
    destruct (UpdateProjects_sent _ _ _ Hs) as [Hb Hreq].
    unfold Contentful.UpdateProjects in *. rewrite Hb in *.
    destruct (newRequestError _ _); [discriminate|].
    rewrite <- Hreq, Hdo in *.
    assert (Hne : negb (StatusCode resp =? 200)%Z = true)
      by (apply negb_true_iff, Z.eqb_neq, Hst).
    rewrite Hne.
    destruct (ReadAll resp) as [respBody|err]; simpl; eexists;
      (split; [reflexivity|]); (split; [apply Contains_middle|]).
    + intros ? [= <-]. split; [|reflexivity].
      do 2 apply Contains_app_r. apply Contains_end.
    + intros ? [=].
Qed.

End Client.

Lemma UpdateProjects_frame_witness :
  sent Demo.demoUpdate = Some Demo.demoRequest /\
  Demo.conflictStore Demo.demoRequest = inl (mkResponse 409 (inl "VersionMismatch"%string)) /\
  Header Demo.demoRequest !! "X-Contentful-Version"%string = Some "7"%string /\
  exists msg, updateErr Demo.demoUpdate = Some msg /\
    Contains msg "409" = true /\
    msg = "CMA update failed (409): VersionMismatch"%string.
Proof.
  assert (Hs : sent Demo.demoUpdate = Some Demo.demoRequest) by (vm_compute; reflexivity).
  pose proof (UpdateProjects_frame "https://api.contentful.com" "space" "token"
                Demo.marshalBody Demo.newRequestError Demo.conflictStore
                Demo.decodeEntryItem Demo.demoResult Demo.demoProjects)
    as (_ & _ & Hreq & Hresp).
  split; [exact Hs|]. split; [reflexivity|]. split.
  - exact (proj2 (proj2 (Hreq Demo.demoRequest Hs))).
  - destruct (Hresp Demo.demoRequest (mkResponse 409 (inl "VersionMismatch"%string))
                Hs eq_refl ltac:(discriminate)) as (msg & Hmsg & Hcode & Hbody).
    exists msg. split; [exact Hmsg|]. split; [exact Hcode|].
    exact (proj2 (Hbody _ eq_refl)).
Defined.

(** The three shapes of an entry, run through the reference decoder: no
    container, a container that is not locale-wrapped, and a locale-wrapped
    container whose content is not a project array. *)
Example GetProjects_fresh_run :
  GetProjects RefDecoder.decode (inl Demo.freshEntry) (inr "unused"%string) =
  (Some {| Projects := []; EntryID := "6Xy"; Version := 1;
           RawFields := Fields Demo.freshEntry |}, None).
Proof. vm_compute. reflexivity. Qed.

Example GetProjects_unwrapped_run :
  GetProjects RefDecoder.decode (inl Demo.unwrappedEntry) (inr "unused"%string) =
  (Some {| Projects := []; EntryID := "6Xy"; Version := 7;
           RawFields := Fields Demo.unwrappedEntry |},
   Some "content field is not locale-wrapped"%string).
Proof. vm_compute. reflexivity. Qed.

(** C4 (evaluation at the failing input). The container of the entry exists
    and is locale-wrapped, but its content is a string and does not decode
    into a project array: [GetProjects] returns the decode error and a nil
    result, so the entry's identity ["6Xy"] and version [7] are not
    returned. *)
Theorem GetProjects_undecodable_run :
  Fields Demo.brokenEntry !! "content"%string
    = Some (VMap [("en-US"%string, VStr "oops")]) /\
  GetProjects RefDecoder.decode (inl Demo.brokenEntry) (inr "unused"%string) =
  (None,
   Some "unmarshal projects: json: cannot unmarshal string into Go value of type []contentful.Project"%string).
Proof. split; vm_compute; reflexivity. Qed.

End ContentfulFacts.

(** ** Detail collector *)

Module SyncerFacts.
Import Github Syncer.

Section WithClient.
Context {sorter : SliceSorter}.
Variable GetRepoLanguages : nat -> Repo -> list (string * Z) * option error.
Variable GetRepoREADME : nat -> Repo -> string * option error.

Local Abbreviation collect := (collect GetRepoLanguages GetRepoREADME).
Local Abbreviation stepWith := (stepWith GetRepoLanguages GetRepoREADME).
Local Abbreviation exec := (exec GetRepoLanguages GetRepoREADME).
Local Abbreviation accounted := (accounted GetRepoLanguages GetRepoREADME).

Lemma stepWith_accounted all c s s' :
  stepWith c s = Some s' -> accounted all s -> accounted all s'.
Proof.
  unfold accounted. intros Hstep [Hperm Herr].
  destruct c as [|k|k]; simpl in Hstep.
  - destruct (unspawned s) as [|t rest] eqn:Hu; [discriminate|].
    injection Hstep as <-. simpl. split; [|exact Herr].
    rewrite <- Hperm. apply Permutation_app_tail. f_equiv.
    solve_Permutation.
  - destruct (waiting s !! k) as [t|] eqn:Hk; [|discriminate].
    destruct (Nat.ltb _ _); [|discriminate].
    injection Hstep as <-. simpl. split; [|exact Herr].
    rewrite <- Hperm. apply Permutation_app_tail. f_equiv.
    pose proof (delete_Permutation _ _ _ Hk) as Hd.
    set (blocked := delete k (waiting s)) in *.
    rewrite Hd. solve_Permutation.
  - destruct (running s !! k) as [t|] eqn:Hk; [|discriminate].
    injection Hstep as <-. simpl. split; [|exact Herr].
    rewrite <- Hperm.
    pose proof (delete_Permutation _ _ _ Hk) as Hd.
    set (holding := delete k (running s)) in *.
    rewrite Hd, !fmap_app, fmap_cons. solve_Permutation.
Qed.

(** Each step uses up one unit of the remaining work. *)
Lemma stepWith_workLeft c s s' :
  stepWith c s = Some s' -> workLeft s = S (workLeft s').
Proof.
  unfold workLeft. intros Hstep. destruct c as [|k|k]; simpl in Hstep.
  - destruct (unspawned s) as [|t rest]; [discriminate|].
    injection Hstep as <-. simpl. rewrite length_app. simpl. lia.
  - destruct (waiting s !! k) as [t|] eqn:Hk; [|discriminate].
    destruct (Nat.ltb _ _); [|discriminate].
    injection Hstep as <-. simpl.
    pose proof (lookup_lt_Some _ _ _ Hk) as Hlt.
    rewrite length_delete, length_app by eauto. simpl. lia.
  - destruct (running s !! k) as [t|] eqn:Hk; [|discriminate].
    injection Hstep as <-. simpl.
    pose proof (lookup_lt_Some _ _ _ Hk) as Hlt.
    rewrite length_delete by eauto. lia.
Qed.

(** No deadlock: while some goroutine is unfinished, something can move. *)
Lemma progress s :
  allDone s = false -> exists c s', stepWith c s = Some s'.
Proof.
  unfold allDone. intros Hnd.
  destruct (unspawned s) as [|t rest] eqn:Hu.
  - destruct (running s) as [|t run] eqn:Hr.
    + destruct (waiting s) as [|t wait] eqn:Hw; [discriminate|].
      exists (Acquire 0). simpl. rewrite Hw, Hr. simpl. by eexists.
    + exists (Finish 0). simpl. rewrite Hr. simpl. by eexists.
  - exists Spawn. simpl. rewrite Hu. by eexists.
Qed.

Lemma exec_app sch1 sch2 s :
  exec (sch1 ++ sch2) s =
  match exec sch1 s with Some s' => exec sch2 s' | None => None end.
Proof.
  revert s. induction sch1 as [|c sch1 IH]; intros s; simpl; [reflexivity|].
  by destruct (stepWith c s).
Qed.

Lemma exec_accounted all schedule s s' :
  exec schedule s = Some s' -> accounted all s ->
  accounted all s' /\ workLeft s = length schedule + workLeft s'.
Proof.
  revert s. induction schedule as [|c schedule IH]; intros s; simpl.
  - intros [= <-] H. by split.
  - destruct (stepWith c s) as [s1|] eqn:Hstep; [|discriminate].
    intros Hex Hacc.
    destruct (IH s1 Hex (stepWith_accounted _ _ _ _ Hstep Hacc)) as [H1 H2].
    split; [exact H1|]. rewrite (stepWith_workLeft _ _ _ Hstep). lia.
Qed.

(** Every state can be run to completion. *)
Lemma completion s :
  exists schedule s', exec schedule s = Some s' /\ allDone s' = true.
Proof.
  remember (workLeft s) as n eqn:Hn. revert s Hn.
  induction n as [|n IH]; intros s Hn.
  - exists [], s. split; [reflexivity|].
    destruct (allDone s) eqn:Hd; [reflexivity|].
    destruct (progress s Hd) as (c & s' & Hstep).
    apply stepWith_workLeft in Hstep. lia.
  - destruct (allDone s) eqn:Hd.
    + by exists [], s.
    + destruct (progress s Hd) as (c & s1 & Hstep).
      destruct (IH s1) as (schedule & s' & Hex & Hdone).
      { apply stepWith_workLeft in Hstep. lia. }
      exists (c :: schedule), s'. simpl. rewrite Hstep. by split.
Qed.

Lemma init_accounted repos :
  accounted (imap (fun i r => (i, r)) repos) (init repos).
Proof.
  unfold accounted, init. simpl. split; [|reflexivity].
  by rewrite !app_nil_r.
Qed.

Lemma sortedLanguages_empty : Mapper.sortedLanguages [] = [].
Proof.
  unfold Mapper.sortedLanguages. simpl.
  assert (H := sortSlice_perm (string * Z)
                 (fun i j : string * Z => (snd j <? snd i)%Z) []).
  apply Permutation_nil_r in H. by rewrite H.
Qed.

(** For every input and every schedule of [fetchDetails] that has run
    from the start to a state [s]: the run can always be continued to the
    point where [wg.Wait] returns, and it reaches that point after exactly
    three steps per repo; once there, the collected list is a rearrangement
    of one [RawProject] per input repo, it has the length of the input, and
    [fetchDetails] returns it with a nil error.  The project of a repo is
    built whatever the fetches returned: a failed language fetch gives the
    empty language list, and the readme is the text the readme fetch
    returned, whether or not it came with an error. *)
Theorem fetchDetails_complete (repos : list Repo) (schedule : list Choice)
    (s : State) :
  exec schedule (init repos) = Some s ->
  (exists rest s', exec rest s = Some s' /\ allDone s' = true) /\
  length schedule <= 3 * length repos /\
  (allDone s = true ->
     length schedule = 3 * length repos /\
     Permutation (rawProjects s) (imap (fun i r => collect (i, r)) repos) /\
     length (rawProjects s) = length repos /\
     returned s = (Some (rawProjects s), None)) /\
  (forall i r,
     Mapper.Name (collect (i, r)) = Github.Name r /\
     (forall e, snd (GetRepoLanguages i r) = Some e ->
                Mapper.Languages (collect (i, r)) = []) /\
     Mapper.ReadmeRaw (collect (i, r)) = fst (GetRepoREADME i r)).
Proof.
  intros Hex.
  destruct (exec_accounted _ _ _ _ Hex (init_accounted repos)) as [[Hperm Herr] Hwork].
  assert (Hinit : workLeft (init repos) = 3 * length repos).
  { unfold workLeft, init. simpl. rewrite length_imap. lia. }
  rewrite Hinit in Hwork.
  split; [apply completion|]. split; [lia|]. split.
  - intros Hdone. unfold allDone in Hdone.
    destruct (unspawned s) eqn:Hu; [|discriminate].
    destruct (waiting s) eqn:Hw; [|discriminate].
    destruct (running s) eqn:Hr; [|discriminate].
    simpl in Hperm. rewrite fmap_imap in Hperm.
    assert (Hlen : length (rawProjects s) = length repos).
    { rewrite Hperm. apply length_imap. }
    repeat split.
    + unfold workLeft in Hwork. rewrite Hu, Hw, Hr in Hwork. simpl in Hwork. lia.
    + exact Hperm.
    + exact Hlen.
    + unfold returned. by rewrite Herr.
  - intros i r. unfold Syncer.collect.
    destruct (GetRepoLanguages i r) as [languages err].
    destruct (GetRepoREADME i r) as [readme rerr]. simpl.
    repeat split.
    intros e ->. apply sortedLanguages_empty.
Qed.

End WithClient.

Example fetchDetails_run :
  rawProjects <$> Syncer.exec (sorter := insertionSorter) Demo.languagesOf
    Demo.readmeOf Demo.secondFirst (init [Demo.repoA; Demo.repoB]) =
  Some [Mapper.mkRawProject "beta" "beta" "https://github.com/u/beta"
          "https://beta.dev" ["Go"; "C"] "" 20 200;
        Mapper.mkRawProject "alpha" "alpha" "https://github.com/u/alpha"
          "" [] "# alpha" 10 100].
Proof. reflexivity. Qed.

Lemma fetchDetails_complete_witness :
  exists s,
    Syncer.exec (sorter := insertionSorter) Demo.languagesOf Demo.readmeOf
      Demo.secondFirst (init [Demo.repoA; Demo.repoB]) = Some s /\
    allDone s = true /\
    length (rawProjects s) = 2 /\
    returned s = (Some (rawProjects s), None).
Proof.
  eexists. split; [reflexivity|]. split; [reflexivity|].
  pose proof (fetchDetails_complete (sorter := insertionSorter)
                Demo.languagesOf Demo.readmeOf [Demo.repoA; Demo.repoB]
                Demo.secondFirst _ eq_refl) as (_ & _ & Hdone & _).
  destruct (Hdone eq_refl) as (_ & _ & Hlen & Hret).
  split; [exact Hlen|exact Hret].
Defined.


End SyncerFacts.

(** ** Audit log recorder *)

Module CmdFacts.
Import Cmd.

Lemma fold_partitionStep entries own others :
  fold_left partitionStep entries (own, others) =
  (own ++ List.filter isOwn entries, others ++ List.filter isOther entries).
Proof.
  revert own others. induction entries as [|e entries IH]; intros own others; simpl.
  - by rewrite !app_nil_r.
  - assert (Ho : isOther e = negb (isOwn e)) by reflexivity.
    rewrite Ho. destruct (isOwn e); simpl; rewrite IH;
      by rewrite <- app_assoc.
Qed.

(** The stored list: the others' entries, then the last two of this
    service's entries (all of them when there are at most two), then the
    new entry. *)
Lemma allLogEntries_eq entries logEntry :
  allLogEntries entries logEntry =
  List.filter isOther entries ++
  drop (length (List.filter isOwn entries) - 2) (List.filter isOwn entries) ++
  [logEntry].
Proof.
  unfold allLogEntries. rewrite fold_partitionStep, !app_nil_l.
  destruct (Nat.leb 3 (length (List.filter isOwn entries))) eqn:Hc; [reflexivity|].
  apply Nat.leb_gt in Hc.
  by replace (length (List.filter isOwn entries) - 2) with 0 by lia.
Qed.

Section WithStore.
Variables (githubActions now : string).
Variable GetBuildLog : BuildLogResult + error.
Variable createBuildLog : list BuildLogEntry -> (string * Z) + error.
Variable updateBuildLog : BuildLogResult -> list BuildLogEntry -> Z + error.

Local Abbreviation recordBuildLog :=
  (recordBuildLog githubActions now GetBuildLog createBuildLog updateBuildLog).
Local Abbreviation newLogEntry := (newLogEntry githubActions now).

(** C8. When the audit document is read, the list [recordBuildLog] hands to
    the store is: every entry of another service, in the stored order; then
    the last two of this service's prior entries (all of them if there are
    at most two); then the new entry.  With five prior entries of this
    service and three of others it has exactly six entries: the three
    others, this service's fourth and fifth, and the new one. *)
Theorem recordBuildLog_cap (cfgForceUpdate : bool) (stats : Syncer.SyncStats)
    (result : BuildLogResult) :
  GetBuildLog = inl result ->
  let own := List.filter isOwn (Entries result) in
  let others := List.filter isOther (Entries result) in
  let logEntry := newLogEntry cfgForceUpdate stats in
  let stored := others ++ drop (length own - 2) own ++ [logEntry] in
  (exists rest,
      recordBuildLog cfgForceUpdate stats =
      (if String.eqb (EntryID result) ""
       then CreateBuildLog stored else UpdateBuildLog result stored) :: rest) /\
  sublist others (Entries result) /\
  length stored = length others + Nat.min 2 (length own) + 1 /\
  (length own = 5 -> length others = 3 ->
     length stored = 6 /\
     exists o1 o2 o3 o4 o5,
       own = [o1; o2; o3; o4; o5] /\
       stored = others ++ [o4; o5; logEntry]).
Proof.
  intros Hget. cbv zeta. split; [|split; [|split]].
  - unfold Cmd.recordBuildLog. rewrite Hget, allLogEntries_eq.
    destruct (String.eqb (EntryID result) "").
    + destruct (createBuildLog _) as [[id v]|err]; by eexists.
    + destruct (updateBuildLog _ _) as [v|err]; by eexists.
  - induction (Entries result) as [|e l IH]; simpl; [constructor|].
    destruct (isOther e); by constructor.
  - rewrite !length_app, length_drop. cbn [length]. lia.
  - intros Hown Hothers. split.
    + rewrite !length_app, length_drop. cbn [length]. lia.
    + destruct (List.filter isOwn (Entries result))
        as [|o1 [|o2 [|o3 [|o4 [|o5 [|o6 own]]]]]]; try discriminate.
      by exists o1, o2, o3, o4, o5.
Qed.

End WithStore.

Lemma recordBuildLog_cap_witness :
  let logEntry := newLogEntry "true" "t9" false Demo.demoStats in
  length (List.filter isOwn Demo.auditLog) = 5 /\
  length (List.filter isOther Demo.auditLog) = 3 /\
  recordBuildLog "true" "t9" (inl Demo.auditResult) Demo.createOk Demo.updateOk
    false Demo.demoStats =
  [UpdateBuildLog Demo.auditResult
     [Demo.logOf "blog-sync" "t2"; Demo.logOf "resume-sync" "t5";
      Demo.logOf "blog-sync" "t7"; Demo.logOf "github-cms-sync" "t6";
      Demo.logOf "github-cms-sync" "t8"; logEntry];
   PublishEntry "log1" 13] /\
  length (List.filter isOther Demo.auditLog ++
          drop (5 - 2) (List.filter isOwn Demo.auditLog) ++ [logEntry]) = 6.
Proof.
  cbv zeta. split; [reflexivity|]. split; [reflexivity|]. split; [reflexivity|].
  exact (proj1 (proj2 (proj2 (proj2
           (recordBuildLog_cap "true" "t9" (inl Demo.auditResult) Demo.createOk
              Demo.updateOk false Demo.demoStats Demo.auditResult eq_refl)))
           eq_refl eq_refl)).
Defined.

End CmdFacts.

(** ** Configuration *)

Module ConfigFacts.
Import Config.

Section WithEnvironment.
Variable Getenv : string -> string.

Lemma envInt_invalid key defaultVal :
  Atoi (Getenv key) = None -> envInt Getenv key defaultVal = defaultVal.
Proof.
  intros H. unfold envInt. rewrite H. by destruct (negb _).
Qed.

(** C10. With the four required variables set, [Load] succeeds whatever the
    optional variables hold; a [MAX_FEATURED] that [strconv.Atoi] rejects
    gives 5, a [MAX_PROJECTS] that it rejects gives 15, and a
    [FORCE_UPDATE] that [strconv.ParseBool] rejects gives false. *)
Theorem Load_invalid_optionals :
  Getenv "CONTENTFUL_SPACE_ID" <> ""%string ->
  Getenv "CONTENTFUL_CMA_TOKEN" <> ""%string ->
  Getenv "CONTENTFUL_ENTRY_ID" <> ""%string ->
  Getenv "GEMINI_API_KEY" <> ""%string ->
  exists cfg,
    Load Getenv = inl cfg /\
    (Atoi (Getenv "MAX_FEATURED") = None -> MaxFeatured cfg = 5%Z) /\
    (Atoi (Getenv "MAX_PROJECTS") = None -> MaxProjects cfg = 15%Z) /\
    (ParseBool (Getenv "FORCE_UPDATE") = None -> ForceUpdate cfg = false).
Proof.
  intros H1 H2 H3 H4. unfold Load.
  apply String.eqb_neq in H1, H2, H3, H4. rewrite H1, H2, H3, H4.
  eexists. split; [reflexivity|]. simpl. repeat split.
  - apply envInt_invalid.
  - apply envInt_invalid.
  - by intros ->.
Qed.

End WithEnvironment.

Example Atoi_examples :
  Atoi "12" = Some 12%Z /\ Atoi "-7" = Some (-7)%Z /\ Atoi "+3" = Some 3%Z /\
  Atoi "five" = None /\ Atoi "1e3" = None /\ Atoi " 5" = None /\
  Atoi "-" = None /\ Atoi "9223372036854775808" = None /\
  Atoi "-9223372036854775808" = Some (-9223372036854775808)%Z.
Proof. repeat split. Qed.

Lemma Load_invalid_optionals_witness :
  Atoi (Demo.badOptionals "MAX_FEATURED") = None /\
  Atoi (Demo.badOptionals "MAX_PROJECTS") = None /\
  ParseBool (Demo.badOptionals "FORCE_UPDATE") = None /\
  exists cfg,
    Load Demo.badOptionals = inl cfg /\
    MaxFeatured cfg = 5%Z /\ MaxProjects cfg = 15%Z /\ ForceUpdate cfg = false.
Proof.
  split; [reflexivity|]. split; [reflexivity|]. split; [reflexivity|].
  destruct (Load_invalid_optionals Demo.badOptionals)
    as (cfg & Hload & Hf & Hp & Hu); try discriminate.
  exists cfg. split; [exact Hload|].
  split; [exact (Hf eq_refl)|]. split; [exact (Hp eq_refl)|exact (Hu eq_refl)].
Defined.

End ConfigFacts.

(** * Further properties of the packages *)

(** ** Entity filter and language ordering *)

Module MapperMore.
Import Github Mapper MapperFacts.

Lemma filter_idem {A} (f : A -> bool) (l : list A) :
  List.filter f (List.filter f l) = List.filter f l.
Proof.
  induction l as [|x l IH]; simpl; [reflexivity|].
  destruct (f x) eqn:Hx; simpl; rewrite ?Hx, IH; reflexivity.
Qed.

Lemma fold_append_id {A} (l acc : list A) :
  fold_left (fun langs nb => langs ++ [nb]) l acc = acc ++ l.
Proof.
  revert acc. induction l as [|x l IH]; intros acc; simpl.
  - by rewrite app_nil_r.
  - by rewrite IH, <- app_assoc.
Qed.

Lemma StronglySorted_weaken {A} (R1 R2 : A -> A -> Prop) (l : list A) :
  (forall a b, R1 a b -> R2 a b) -> StronglySorted R1 l -> StronglySorted R2 l.
Proof.
  intros Himp Hs. induction Hs as [|a l Hs IH Hall]; constructor; [exact IH|].
  apply (Forall_impl _ _ _ Hall). intros b. apply Himp.
Qed.

Lemma byBytes_strict_weak :
  strict_weak (fun i j : string * Z => (snd j <? snd i)%Z).
Proof.
  repeat split; intros *; rewrite ?Z.ltb_lt, ?Z.ltb_ge; lia.
Qed.

Section Filter.
Variable ToLower : string -> string.

(** Filtering an already filtered list removes nothing more. *)
Theorem FilterRepos_idempotent (repos : list Repo) (username : string) :
  FilterRepos ToLower (FilterRepos ToLower repos username) username =
  FilterRepos ToLower repos username.
Proof. rewrite !FilterRepos_filter. apply filter_idem. Qed.

(** Each repo is judged on its own: filtering a concatenation is the
    concatenation of the filtered parts, the empty list stays empty, and the
    output is never longer than the input. *)
Theorem FilterRepos_app (repos1 repos2 : list Repo) (username : string) :
  FilterRepos ToLower (repos1 ++ repos2) username =
    FilterRepos ToLower repos1 username ++ FilterRepos ToLower repos2 username /\
  FilterRepos ToLower [] username = [] /\
  length (FilterRepos ToLower repos1 username) <= length repos1.
Proof.
  rewrite !FilterRepos_filter. split; [apply List.filter_app|].
  split; [reflexivity|]. apply List.filter_length_le.
Qed.

End Filter.

Section Languages.
Context {sorter : SliceSorter}.

(** X1. [sortedLanguages] returns the names of a rearrangement of the map's
    entries in which the byte counts never increase: every language appears
    once per entry, none is added, and a language with more bytes never
    comes after one with fewer. *)
Theorem sortedLanguages_sorted (languages : list (string * Z)) :
  exists ordered,
    Permutation ordered languages /\
    StronglySorted (fun a b : string * Z => (snd b <= snd a)%Z) ordered /\
    sortedLanguages languages = map fst ordered /\
    length (sortedLanguages languages) = length languages.
Proof.
  unfold sortedLanguages. rewrite fold_append_id, app_nil_l.
  set (less := fun i j : string * Z => (snd j <? snd i)%Z).
  exists (sortSlice less languages).
  pose proof (sortSlice_perm _ less languages) as Hperm.
  split; [exact Hperm|]. split; [|split; [reflexivity|]].
  - apply (StronglySorted_weaken (fun a b => less b a = false)).
    + intros a b Hb. unfold less in Hb. by apply Z.ltb_ge in Hb.
    + apply sortSlice_sorted, byBytes_strict_weak.
  - rewrite length_map. by rewrite Hperm.
Qed.

End Languages.

Example sortedLanguages_run :
  @sortedLanguages insertionSorter
    [("C"%string, 10%Z); ("Go"%string, 300%Z); ("Shell"%string, 25%Z)]
  = ["Go"; "Shell"; "C"]%string.
Proof. reflexivity. Qed.

End MapperMore.

(** ** Selection heuristic beyond [0 <= K <= N] *)

Module HeuristicMore.
Import Contentful Heuristic HeuristicFacts.

Section WithSort.
Context {sorter : SliceSorter}.

(** X2. [ApplyFeatured] returns a list exactly when [maxTotal] is not negative:
    a negative [maxTotal] makes the slice expression panic for every input,
    the empty one included. *)
Theorem ApplyFeatured_defined (projects : list Project) (K N : Z) :
  (exists out, ApplyFeatured projects K N = Some out) <-> (0 <= N)%Z.
Proof.
  split.
  - intros [out H]. by apply ApplyFeatured_Some in H as [HN _].
  - intros HN. eexists. by apply ApplyFeatured_nonneg.
Qed.

(** X3. For any [maxFeatured], also negative or larger than [maxTotal]: the
    entry at index [i] is featured exactly when [i < maxFeatured], so the
    number of featured entries is [maxFeatured] clamped between 0 and the
    length of the result; none is featured for [maxFeatured <= 0] and all
    are for [maxFeatured] at least the length. *)
Theorem ApplyFeatured_any_K (projects : list Project) (K N : Z)
    (out : list Project) :
  ApplyFeatured projects K N = Some out ->
  (forall i p, out !! i = Some p -> Featured p = (Z.of_nat i <? K)%Z) /\
  Z.of_nat (length (List.filter Featured out)) =
    Z.max 0 (Z.min K (Z.of_nat (length out))) /\
  ((K <= 0)%Z -> Forall (fun p => Featured p = false) out) /\
  ((Z.of_nat (length out) <= K)%Z -> Forall (fun p => Featured p = true) out).
Proof.
  intros H. apply ApplyFeatured_Some in H as [HN ->].
  assert (Hflag : forall i p,
             imap (mark K) (take (Z.to_nat N) (sortSlice after projects)) !! i = Some p ->
             Featured p = (Z.of_nat i <? K)%Z).
  { intros i p Hp. rewrite list_lookup_imap in Hp.
    destruct (take _ _ !! i) as [p0|]; [|discriminate]. by injection Hp as <-. }
  split; [exact Hflag|]. split; [|split].
  - rewrite (imap_ext _ (fun i => mark K (0 + i))) by done.
    rewrite count_marked, length_imap. lia.
  - intros HK. apply Forall_lookup. intros i p Hp.
    rewrite (Hflag i p Hp). apply Z.ltb_ge. lia.
  - intros HK. apply Forall_lookup. intros i p Hp.
    rewrite (Hflag i p Hp). apply Z.ltb_lt.
    apply lookup_lt_Some in Hp. lia.
Qed.

(** X4. Truncation keeps the most recent projects: the input splits, up to the
    featured flag, into the returned entries and the dropped ones, and no
    dropped project was pushed later than a returned one. *)
Theorem ApplyFeatured_keeps_most_recent (projects : list Project) (K N : Z)
    (out : list Project) :
  ApplyFeatured projects K N = Some out ->
  exists dropped,
    Permutation (map unflag out ++ map unflag dropped) (map unflag projects) /\
    length out + length dropped = length projects /\
    (forall p q, p ∈ out -> q ∈ dropped -> (PushedAt q <= PushedAt p)%Z).
Proof.
  intros H. apply ApplyFeatured_Some in H as [HN ->].
  pose proof (sortSlice_perm _ after projects) as Hperm.
  pose proof (sortSlice_sorted _ after projects after_strict_weak) as Hsorted.
  set (sorted := sortSlice after projects) in *.
  set (n := Z.to_nat N).
  exists (drop n sorted). split; [|split].
  - change (@map) with (@fmap list _).
    rewrite fmap_imap, (imap_ext _ (const unflag)) by done.
    rewrite imap_const, <- fmap_app, take_drop. by f_equiv.
  - rewrite length_imap, <- length_app, take_drop. by rewrite Hperm.
  - intros p q Hp Hq.
    apply elem_of_lookup_imap in Hp as (i & p0 & -> & Hp0).
    apply lookup_take_Some in Hp0 as [Hp0 Hi].
    apply list_elem_of_lookup in Hq as [j Hq]. rewrite lookup_drop in Hq.
    assert (Hlt : i < n + j) by lia.
    pose proof (StronglySorted_lookup _ _ _ _ _ _ Hsorted Hlt Hp0 Hq) as Hord.
    unfold after in Hord. apply Z.ltb_ge in Hord. exact Hord.
Qed.

End WithSort.

Lemma ApplyFeatured_any_K_witness :
  @ApplyFeatured insertionSorter Demo.demoProjects 9 3 =
    Some [Demo.demoProject "new" 300 true; Demo.demoProject "mid" 200 true;
          Demo.demoProject "mid2" 200 true] /\
  Z.of_nat (length (List.filter Featured
     [Demo.demoProject "new" 300 true; Demo.demoProject "mid" 200 true;
      Demo.demoProject "mid2" 200 true])) = Z.max 0 (Z.min 9 3).
Proof.
  split; [reflexivity|].
  exact (proj1 (proj2 (@ApplyFeatured_any_K insertionSorter Demo.demoProjects 9 3
                         _ eq_refl))).
Defined.

Lemma ApplyFeatured_keeps_most_recent_witness :
  @ApplyFeatured insertionSorter Demo.demoProjects 1 3 =
    Some [Demo.demoProject "new" 300 true; Demo.demoProject "mid" 200 false;
          Demo.demoProject "mid2" 200 false] /\
  exists dropped,
    3 + length dropped = length Demo.demoProjects /\
    (forall q, q ∈ dropped -> (PushedAt q <= 300)%Z).
Proof.
  split; [reflexivity|].
  destruct (@ApplyFeatured_keeps_most_recent insertionSorter Demo.demoProjects 1 3
              _ eq_refl) as (dropped & _ & Hlen & Hord).
  exists dropped. split; [exact Hlen|].
  intros q Hq. apply (Hord (Demo.demoProject "new" 300 true) q); [|exact Hq].
  apply list_elem_of_here.
Defined.

End HeuristicMore.

(** ** Audit log recorder: store calls and the cap as an invariant *)

Module CmdMore.
Import Cmd CmdFacts.

Lemma filter_app_all {A} (f : A -> bool) (l : list A) :
  Forall (fun x => f x = true) l -> List.filter f l = l.
Proof.
  induction 1 as [|x l Hx _ IH]; simpl; [reflexivity|]. by rewrite Hx, IH.
Qed.

Lemma filter_app_none {A} (f : A -> bool) (l : list A) :
  Forall (fun x => f x = false) l -> List.filter f l = [].
Proof.
  induction 1 as [|x l Hx _ IH]; simpl; [reflexivity|]. by rewrite Hx, IH.
Qed.

Lemma filter_own_own entries :
  Forall (fun e => isOwn e = true) (List.filter isOwn entries).
Proof.
  apply Forall_forall. intros e He. apply list_elem_of_In, filter_In in He. tauto.
Qed.

Lemma filter_other_other entries :
  Forall (fun e => isOther e = true) (List.filter isOther entries).
Proof.
  apply Forall_forall. intros e He. apply list_elem_of_In, filter_In in He. tauto.
Qed.

Lemma Forall_drop_own n entries :
  Forall (fun e => isOwn e = true) (drop n (List.filter isOwn entries)).
Proof. apply Forall_drop, filter_own_own. Qed.

(** X5. Appending an entry of this service leaves the entries of the other
    services exactly as they were, and leaves at most three entries of this
    service: its last two prior ones (fewer if there were fewer) and the new
    one.  So the cap holds after every append, whatever the list held
    before. *)
Theorem allLogEntries_invariant (entries : list BuildLogEntry)
    (logEntry : BuildLogEntry) :
  isOwn logEntry = true ->
  let stored := allLogEntries entries logEntry in
  List.filter isOther stored = List.filter isOther entries /\
  List.filter isOwn stored =
    drop (length (List.filter isOwn entries) - 2) (List.filter isOwn entries)
      ++ [logEntry] /\
  length (List.filter isOwn stored) <= 3 /\
  last stored = Some logEntry.
Proof.
  intros Hown. cbv zeta. rewrite allLogEntries_eq.
  set (own := List.filter isOwn entries).
  set (others := List.filter isOther entries).
  assert (Hoo : Forall (fun e => isOther e = false) (drop (length own - 2) own ++ [logEntry])).
  { apply Forall_app. split.
    - apply (Forall_impl _ _ _ (Forall_drop_own _ entries)).
      intros e He. unfold isOther. by rewrite He.
    - constructor; [|constructor]. unfold isOther. by rewrite Hown. }
  assert (Hown' : Forall (fun e => isOwn e = true) (drop (length own - 2) own ++ [logEntry])).
  { apply Forall_app. split; [apply Forall_drop_own|]. by repeat constructor. }
  assert (Hot : Forall (fun e => isOwn e = false) others).
  { apply (Forall_impl _ _ _ (filter_other_other entries)).
    intros e He. unfold isOther in He. by apply negb_true_iff in He. }
  rewrite !List.filter_app.
  rewrite (filter_app_all isOther others) by apply filter_other_other.
  rewrite <- List.filter_app, (filter_app_none isOther _ Hoo), app_nil_r.
  rewrite (filter_app_none isOwn others Hot), app_nil_l.
  rewrite <- List.filter_app, (filter_app_all isOwn _ Hown').
  repeat split.
  - rewrite length_app, length_drop. cbn [length]. lia.
  - by rewrite app_assoc, last_snoc.
Qed.

Section WithStore.
Variables (githubActions now : string).
Variable GetBuildLog : BuildLogResult + error.
Variable createBuildLog : list BuildLogEntry -> (string * Z) + error.
Variable updateBuildLog : BuildLogResult -> list BuildLogEntry -> Z + error.

Local Abbreviation recordBuildLog :=
  (recordBuildLog githubActions now GetBuildLog createBuildLog updateBuildLog).
Local Abbreviation newLogEntry := (newLogEntry githubActions now).

(** X6. [recordBuildLog] makes no call on the store when the audit
    document cannot be read.  Otherwise its calls are exactly one write,
    a create when the document has no entry id and an update otherwise,
    followed by at most one publish: the write alone when the write was
    refused, and the write followed by one publish when it succeeded, the
    publish carrying the id and version the write established. *)
Theorem recordBuildLog_calls (cfgForceUpdate : bool) (stats : Syncer.SyncStats) :
  let calls := recordBuildLog cfgForceUpdate stats in
  let stored result := allLogEntries (Entries result) (newLogEntry cfgForceUpdate stats) in
  let write result :=
    if String.eqb (EntryID result) ""
    then CreateBuildLog (stored result)
    else UpdateBuildLog result (stored result) in
  (forall err, GetBuildLog = inr err -> calls = []) /\
  (forall result, GetBuildLog = inl result ->
     (calls = [write result] /\
      ((EntryID result = ""%string /\
        exists err, createBuildLog (stored result) = inr err) \/
       (EntryID result <> ""%string /\
        exists err, updateBuildLog result (stored result) = inr err))) \/
     (exists entryID version,
        calls = [write result; PublishEntry entryID version] /\
        ((EntryID result = ""%string /\
          createBuildLog (stored result) = inl (entryID, version)) \/
         (EntryID result <> ""%string /\ entryID = EntryID result /\
          updateBuildLog result (stored result) = inl version)))) /\
  (forall entryID version, PublishEntry entryID version ∈ calls ->
     exists result, GetBuildLog = inl result /\
       calls = [write result; PublishEntry entryID version]).
Proof.
  cbv zeta. unfold Cmd.recordBuildLog. split; [|split].
  - by intros err ->.
  - intros result ->.
    destruct (String.eqb (EntryID result) "") eqn:Hid.
    + apply String.eqb_eq in Hid.
      destruct (createBuildLog _) as [[id v]|e] eqn:Hc.
      * right. exists id, v. split; [reflexivity|]. by left.
      * left. split; [reflexivity|]. left. split; [exact Hid|by exists e].
    + apply String.eqb_neq in Hid.
      destruct (updateBuildLog _ _) as [v|e] eqn:Hu.
      * right. exists (EntryID result), v. split; [reflexivity|]. by right.
      * left. split; [reflexivity|]. right. split; [exact Hid|by exists e].
  - intros entryID version Hin.
    destruct GetBuildLog as [result|e]; [|by apply elem_of_nil in Hin].
    exists result. split; [reflexivity|].
    destruct (String.eqb (EntryID result) "").
    + destruct (createBuildLog _) as [[id v]|e].
      * apply elem_of_cons in Hin as [Hin|Hin]; [discriminate|].
        apply list_elem_of_singleton in Hin. by injection Hin as -> ->.
      * apply list_elem_of_singleton in Hin. discriminate.
    + destruct (updateBuildLog _ _) as [v|e].
      * apply elem_of_cons in Hin as [Hin|Hin]; [discriminate|].
        apply list_elem_of_singleton in Hin. by injection Hin as -> ->.
      * apply list_elem_of_singleton in Hin. discriminate.
Qed.

End WithStore.

Lemma allLogEntries_invariant_witness :
  let logEntry := Demo.logOf "github-cms-sync" "t9" in
  isOwn logEntry = true /\
  List.filter isOther (allLogEntries Demo.auditLog logEntry) =
    List.filter isOther Demo.auditLog /\
  length (List.filter isOwn (allLogEntries Demo.auditLog logEntry)) <= 3.
Proof.
  cbv zeta. split; [reflexivity|].
  pose proof (allLogEntries_invariant Demo.auditLog
                (Demo.logOf "github-cms-sync" "t9") eq_refl) as (Ho & _ & Hn & _).
  split; [exact Ho|exact Hn].
Defined.

Lemma recordBuildLog_calls_witness :
  let stored :=
    allLogEntries Demo.auditLog (Cmd.newLogEntry "true" "t9" false Demo.demoStats) in
  recordBuildLog "true" "t9" (inl Demo.auditResult) Demo.createOk Demo.updateOk
    false Demo.demoStats =
    [UpdateBuildLog Demo.auditResult stored; PublishEntry "log1" 13] /\
  recordBuildLog "true" "t9" (inl Demo.auditResult) Demo.createOk
    Demo.updateRefused false Demo.demoStats =
    [UpdateBuildLog Demo.auditResult stored] /\
  recordBuildLog "true" "t9" (inr "404 Not Found"%string) Demo.createOk
    Demo.updateOk false Demo.demoStats = [].
Proof.
  cbv zeta. split; [|split].
  - destruct (proj1 (proj2 (recordBuildLog_calls "true" "t9" (inl Demo.auditResult)
                Demo.createOk Demo.updateOk false Demo.demoStats))
                Demo.auditResult eq_refl)
      as [[_ [[Hid _]|[_ [err Herr]]]]
         |(entryID & version & Hcalls & [[Hid _]|(_ & -> & Hv)])];
      try discriminate.
    injection Hv as <-. exact Hcalls.
  - destruct (proj1 (proj2 (recordBuildLog_calls "true" "t9" (inl Demo.auditResult)
                Demo.createOk Demo.updateRefused false Demo.demoStats))
                Demo.auditResult eq_refl)
      as [[Hcalls _]
         |(entryID & version & _ & [[Hid _]|(_ & _ & Hv)])];
      try discriminate.
    exact Hcalls.
  - exact (proj1 (recordBuildLog_calls "true" "t9" (inr "404 Not Found"%string)
             Demo.createOk Demo.updateOk false Demo.demoStats) _ eq_refl).
Defined.

End CmdMore.

(** ** Configuration: required variables and integer parsing *)

Module ConfigMore.
Import Config.

Lemma digits_printed d acc :
  digits (NilEmpty.string_of_uint d) acc = Some (uintValue d acc).
Proof.
  revert acc. induction d; intros acc; simpl; try reflexivity; apply IHd.
Qed.

Lemma uintValue_acc d (acc : positive) :
  uintValue d (Z.pos acc) = Z.pos (Pos.of_uint_acc d acc).
Proof.
  revert acc. induction d; intros acc; simpl; try reflexivity;
    match goal with
    | |- uintValue _ ?z = Z.pos (Pos.of_uint_acc _ ?p) =>
        replace z with (Z.pos p) by lia
    end; apply IHd.
Qed.

Lemma uintValue_zero d : uintValue d 0 = Z.of_uint d.
Proof.
  unfold Z.of_uint. induction d; simpl; try reflexivity;
    try apply (uintValue_acc d).
  exact IHd.
Qed.

Lemma Atoi_unsigned d :
  (Z.of_uint d <= 2 ^ 63 - 1)%Z ->
  Atoi (NilZero.string_of_uint d) = Some (Z.of_uint d).
Proof.
  intros Hr.
  assert (Hpos : (0 <= Z.of_uint d)%Z) by (unfold Z.of_uint; lia).
  assert (Hd : digits (NilZero.string_of_uint d) 0 = Some (Z.of_uint d)).
  { rewrite <- uintValue_zero. destruct d; try apply digits_printed. reflexivity. }
  assert (Hcheck : (- 2 ^ 63 <=? Z.of_uint d)%Z && (Z.of_uint d <=? 2 ^ 63 - 1)%Z = true).
  { apply andb_true_iff. split; apply Z.leb_le; lia. }
  destruct d; unfold Atoi; cbn [NilZero.string_of_uint NilEmpty.string_of_uint] in *;
    cbv iota beta; rewrite Hd; cbv iota beta; by rewrite Hcheck.
Qed.

Lemma Atoi_negative d :
  (- 2 ^ 63 <= - Z.of_uint d)%Z ->
  Atoi (String "-" (NilZero.string_of_uint d)) = Some (- Z.of_uint d)%Z.
Proof.
  intros Hr.
  assert (Hpos : (0 <= Z.of_uint d)%Z) by (unfold Z.of_uint; lia).
  assert (Hd : digits (NilZero.string_of_uint d) 0 = Some (Z.of_uint d)).
  { rewrite <- uintValue_zero. destruct d; try apply digits_printed. reflexivity. }
  assert (Hcheck : (- 2 ^ 63 <=? - Z.of_uint d)%Z && (- Z.of_uint d <=? 2 ^ 63 - 1)%Z = true).
  { apply andb_true_iff. split; apply Z.leb_le; lia. }
  unfold Atoi. cbv iota beta.
  destruct d; cbn [NilZero.string_of_uint NilEmpty.string_of_uint] in *;
    cbv iota beta; rewrite Hd; cbv iota beta; by rewrite Hcheck.
Qed.

(** [strconv.Atoi] reads back what [%d] prints: for every 64-bit integer
    [n], parsing the decimal rendering of [n] gives [n]. *)
Lemma Atoi_itoa (n : Z) :
  (- 2 ^ 63 <= n <= 2 ^ 63 - 1)%Z -> Atoi (GoStrings.itoa n) = Some n.
Proof.
  intros Hn. unfold GoStrings.itoa.
  pose proof (DecimalZ.of_to n) as Hof.
  destruct n as [|p|p]; cbn [Z.to_int NilZero.string_of_int] in *.
  - reflexivity.
  - unfold Z.of_int in Hof. rewrite <- Hof. apply Atoi_unsigned. rewrite Hof. lia.
  - unfold Z.of_int in Hof. rewrite <- Hof. apply Atoi_negative. rewrite Hof. lia.
Qed.

Section WithEnvironment.
Variable Getenv : string -> string.

(** X7. A variable holding the decimal rendering of a 64-bit integer is read as
    that integer, whatever the default: zero and negative numbers are
    accepted like any other. *)
Theorem envInt_decimal (key : string) (defaultVal n : Z) :
  (- 2 ^ 63 <= n <= 2 ^ 63 - 1)%Z ->
  Getenv key = GoStrings.itoa n ->
  envInt Getenv key defaultVal = n.
Proof.
  intros Hn Hv. unfold envInt. rewrite Hv, (Atoi_itoa n Hn).
  destruct (String.eqb (GoStrings.itoa n) "") eqn:He; [|reflexivity].
  apply String.eqb_eq in He. pose proof (Atoi_itoa n Hn) as Ha.
  rewrite He in Ha. discriminate.
Qed.

(** X8. [Load] fails exactly when one of the four required variables is empty,
    and then names the first empty one in the order space id, token, entry
    id, API key; the optional variables play no part in that. *)
Theorem Load_required :
  let space := Getenv "CONTENTFUL_SPACE_ID" in
  let token := Getenv "CONTENTFUL_CMA_TOKEN" in
  let entry := Getenv "CONTENTFUL_ENTRY_ID" in
  let key := Getenv "GEMINI_API_KEY" in
  (space = ""%string -> Load Getenv = inr "CONTENTFUL_SPACE_ID is required"%string) /\
  (space <> ""%string -> token = ""%string ->
     Load Getenv = inr "CONTENTFUL_CMA_TOKEN is required"%string) /\
  (space <> ""%string -> token <> ""%string -> entry = ""%string ->
     Load Getenv = inr "CONTENTFUL_ENTRY_ID is required"%string) /\
  (space <> ""%string -> token <> ""%string -> entry <> ""%string ->
     key = ""%string -> Load Getenv = inr "GEMINI_API_KEY is required"%string) /\
  ((exists cfg, Load Getenv = inl cfg) <->
     space <> ""%string /\ token <> ""%string /\ entry <> ""%string /\
     key <> ""%string).
Proof.
  cbv zeta. unfold Load.
  destruct (String.eqb_spec (Getenv "CONTENTFUL_SPACE_ID") "") as [H1|H1];
  destruct (String.eqb_spec (Getenv "CONTENTFUL_CMA_TOKEN") "") as [H2|H2];
  destruct (String.eqb_spec (Getenv "CONTENTFUL_ENTRY_ID") "") as [H3|H3];
  destruct (String.eqb_spec (Getenv "GEMINI_API_KEY") "") as [H4|H4];
  (split; [intros; congruence|]);
  (split; [intros; congruence|]);
  (split; [intros; congruence|]);
  (split; [intros; congruence|]);
  (split; [intros [cfg Hc]; try discriminate; tauto
          |intros (? & ? & ? & ?); try congruence; by eexists]).
Qed.

(** A loaded configuration is usable: its four required fields and the
    GitHub user name are never empty, the user name being the built-in
    default when the variable is unset. *)
Theorem Load_nonempty (cfg : Config) :
  Load Getenv = inl cfg ->
  SpaceID cfg <> ""%string /\ CMAToken cfg <> ""%string /\
  EntryID cfg <> ""%string /\ GeminiAPIKey cfg <> ""%string /\
  GitHubUsername cfg <> ""%string /\
  (Getenv "GITHUB_USERNAME" = ""%string ->
     GitHubUsername cfg = "alberto-moreno-sa"%string).
Proof.
  unfold Load.
  destruct (String.eqb_spec (Getenv "CONTENTFUL_SPACE_ID") "") as [H1|H1]; [discriminate|].
  destruct (String.eqb_spec (Getenv "CONTENTFUL_CMA_TOKEN") "") as [H2|H2]; [discriminate|].
  destruct (String.eqb_spec (Getenv "CONTENTFUL_ENTRY_ID") "") as [H3|H3]; [discriminate|].
  destruct (String.eqb_spec (Getenv "GEMINI_API_KEY") "") as [H4|H4]; [discriminate|].
  intros [= <-]. simpl. repeat split; try assumption.
  - destruct (String.eqb_spec (Getenv "GITHUB_USERNAME") ""); [discriminate|assumption].
  - intros ->. reflexivity.
Qed.

(** X9. [Load] does not check the sign of [MAX_PROJECTS]: a negative value is
    stored as it is, and [ApplyFeatured] called with it panics on every
    input. *)
Theorem Load_negative_max_projects {sorter : SliceSorter} (cfg : Config) (n : Z) :
  Load Getenv = inl cfg ->
  Getenv "MAX_PROJECTS" <> ""%string ->
  Atoi (Getenv "MAX_PROJECTS") = Some n ->
  (n < 0)%Z ->
  MaxProjects cfg = n /\
  forall projects, Heuristic.ApplyFeatured projects (MaxFeatured cfg) (MaxProjects cfg) = None.
Proof.
  intros Hload Hne Ha Hn.
  assert (Hm : MaxProjects cfg = n).
  { unfold Load in Hload.
    repeat (destruct (String.eqb _ "") in Hload; [discriminate|]).
    injection Hload as <-. simpl. unfold envInt. rewrite Ha.
    apply String.eqb_neq in Hne. by rewrite Hne. }
  split; [exact Hm|]. intros projects. rewrite Hm.
  by apply HeuristicFacts.ApplyFeatured_negative.
Qed.

End WithEnvironment.

Lemma envInt_decimal_witness :
  (- 2 ^ 63 <= -1 <= 2 ^ 63 - 1)%Z /\
  Demo.negativeMax "MAX_PROJECTS" = GoStrings.itoa (-1) /\
  envInt Demo.negativeMax "MAX_PROJECTS" 15 = (-1)%Z.
Proof.
  split; [lia|]. split; [reflexivity|].
  apply (envInt_decimal Demo.negativeMax "MAX_PROJECTS" 15 (-1)); [lia|reflexivity].
Defined.

Lemma Load_required_witness :
  Demo.badOptionals "CONTENTFUL_SPACE_ID" <> ""%string /\
  (exists cfg, Load Demo.badOptionals = inl cfg) /\
  Load (fun _ => ""%string) = inr "CONTENTFUL_SPACE_ID is required"%string.
Proof.
  split; [discriminate|]. split.
  - apply (proj2 (proj2 (proj2 (proj2 (Load_required Demo.badOptionals))))).
    repeat split; discriminate.
  - apply (proj1 (Load_required (fun _ => ""%string))). reflexivity.
Defined.

Lemma Load_nonempty_witness :
  exists cfg, Load Demo.badOptionals = inl cfg /\
    SpaceID cfg <> ""%string /\ GitHubUsername cfg = "alberto-moreno-sa"%string.
Proof.
  eexists. split; [reflexivity|].
  pose proof (Load_nonempty Demo.badOptionals _ eq_refl) as (Hs & _ & _ & _ & _ & Hu).
  split; [exact Hs|exact (Hu eq_refl)].
Defined.

Lemma Load_negative_max_projects_witness :
  exists cfg, Load Demo.negativeMax = inl cfg /\
    Atoi (Demo.negativeMax "MAX_PROJECTS") = Some (-1)%Z /\
    MaxProjects cfg = (-1)%Z /\
    @Heuristic.ApplyFeatured insertionSorter [] (MaxFeatured cfg) (MaxProjects cfg) = None.
Proof.
  eexists. split; [reflexivity|]. split; [reflexivity|].
  pose proof (@Load_negative_max_projects Demo.negativeMax insertionSorter _ (-1)%Z
                eq_refl ltac:(discriminate) eq_refl ltac:(lia)) as [Hm Hp].
  split; [exact Hm|exact (Hp [])].
Defined.

End ConfigMore.

(** ** Batch enricher: prompt, fences and the remaining exits of the retry loop *)

Module EnricherMore.
Import GoStrings GoStringsFacts Enricher.

Lemma length_append (a b : string) :
  String.length (a +:+ b) = String.length a + String.length b.
Proof.
  induction a as [|c a IH]; [reflexivity|].
  change (S (String.length (a +:+ b)) = S (String.length a + String.length b)).
  by rewrite IH.
Qed.

Lemma substring_all (s : string) : String.substring 0 (String.length s) s = s.
Proof. induction s as [|c s IH]; simpl; [reflexivity|]. by rewrite IH. Qed.

Lemma substring_skip (p t : string) m :
  String.substring (String.length p) m (p +:+ t) = String.substring 0 m t.
Proof.
  induction p as [|c p IH]; [reflexivity|].
  change (String.substring (String.length p) m (p +:+ t) = String.substring 0 m t).
  exact IH.
Qed.

Lemma substring_prefix (p t : string) :
  String.substring 0 (String.length p) (p +:+ t) = p.
Proof.
  induction p as [|c p IH].
  - by destruct t.
  - change (String c (String.substring 0 (String.length p) (p +:+ t)) = String c p).
    by rewrite IH.
Qed.

Lemma substring0_length n (s : string) :
  String.length (String.substring 0 n s) = Nat.min n (String.length s).
Proof.
  revert n. induction s as [|c s IH]; intros [|n]; simpl; try reflexivity.
  by rewrite IH.
Qed.

Lemma HasPrefix_substring0 n (s : string) :
  HasPrefix s (String.substring 0 n s) = true.
Proof.
  revert n. induction s as [|c s IH]; intros [|n]; simpl; try reflexivity.
  by rewrite Ascii.eqb_refl, IH.
Qed.

Lemma sliceFrom_app (p t : string) : sliceFrom (p +:+ t) (String.length p) = t.
Proof.
  unfold sliceFrom. rewrite substring_skip, length_append.
  replace (String.length p + String.length t - String.length p)
    with (String.length t) by lia.
  apply substring_all.
Qed.

Lemma TrimPrefix_app (p t : string) : TrimPrefix (p +:+ t) p = t.
Proof. unfold TrimPrefix. by rewrite HasPrefix_app, sliceFrom_app. Qed.

Lemma TrimSuffix_app (t suffix : string) : TrimSuffix (t +:+ suffix) suffix = t.
Proof.
  unfold TrimSuffix, HasSuffix. rewrite length_append.
  replace (String.length t + String.length suffix - String.length suffix)
    with (String.length t) by lia.
  rewrite sliceFrom_app, String.eqb_refl.
  replace (Nat.leb _ _) with true by (symmetry; apply Nat.leb_le; lia).
  simpl. unfold sliceTo. apply substring_prefix.
Qed.

Lemma HasPrefix_shorter (s p q : string) :
  HasPrefix s (p +:+ q) = true -> HasPrefix s p = true.
Proof.
  revert s. induction p as [|c p IH]; intros s; [reflexivity|].
  change (HasPrefix s (String c (p +:+ q)) = true -> HasPrefix s (String c p) = true).
  destruct s as [|d s]; simpl; [discriminate|].
  rewrite !andb_true_iff. intros [-> H]. split; [reflexivity|]. by apply IH.
Qed.

(** X10. Each prompt entry carries the project's name and a readme cut to at
    most 1500 bytes: the cut text is a prefix of the readme, it is the whole
    readme when that has at most 1500 bytes, and it has exactly 1500 bytes
    otherwise. *)
Theorem promptEntry_truncates (p : Mapper.RawProject) :
  let e := promptEntry p in
  let readme := Mapper.ReadmeRaw p in
  entryName e = Mapper.Name p /\
  HasPrefix readme (entryReadme e) = true /\
  String.length (entryReadme e) = Nat.min maxReadmeChars (String.length readme) /\
  (String.length readme <= maxReadmeChars -> entryReadme e = readme).
Proof.
  cbv zeta. unfold promptEntry. cbn [entryName entryReadme].
  destruct (Nat.ltb_spec maxReadmeChars (String.length (Mapper.ReadmeRaw p))) as [Hlt|Hge].
  - unfold sliceTo. split; [reflexivity|]. split; [apply HasPrefix_substring0|].
    split; [apply substring0_length|]. lia.
  - split; [reflexivity|]. split.
    + rewrite <- (append_empty_r (Mapper.ReadmeRaw p)) at 1. apply HasPrefix_app.
    + split; [lia|reflexivity].
Qed.

Section WithServices.
Variable TrimSpace : string -> string.
Variable marshalEntries : list repoEntry -> string + error.
Variable GenerateContent : nat -> string -> Generated.
Variable ctxDone : nat -> option error.
Variable unmarshalData : string -> list enrichedData + error.

Local Abbreviation retryLoop := (retryLoop GenerateContent ctxDone).
Local Abbreviation Enrich :=
  (Enrich TrimSpace marshalEntries GenerateContent ctxDone unmarshalData).
Local Abbreviation stripMarkdownFences := (stripMarkdownFences TrimSpace).
Local Abbreviation buildBatchPrompt := (buildBatchPrompt marshalEntries).
Local Abbreviation parsed := (parsed TrimSpace unmarshalData).
Local Abbreviation rateLimitedBefore := (rateLimitedBefore GenerateContent ctxDone).

(** The prompt is the encoding of one entry per project, in input order,
    and the literal ["[]"] when the encoder fails. *)
Theorem buildBatchPrompt_entries (projects : list Mapper.RawProject) :
  (forall jsonBytes,
     marshalEntries (map promptEntry projects) = inl jsonBytes ->
     buildBatchPrompt projects = jsonBytes) /\
  (forall err,
     marshalEntries (map promptEntry projects) = inr err ->
     buildBatchPrompt projects = "[]"%string) /\
  length (map promptEntry projects) = length projects /\
  (forall i p, projects !! i = Some p ->
     map promptEntry projects !! i = Some (promptEntry p)).
Proof.
  unfold Enricher.buildBatchPrompt. repeat split.
  - by intros jsonBytes ->.
  - by intros err ->.
  - apply length_map.
  - intros i p Hp. change (@map) with (@fmap list _).
    by rewrite list_lookup_fmap, Hp.
Qed.

(** X11. A response that, once trimmed, is wrapped in a code fence loses the
    fence: what is left is the text between the opening fence (with or
    without the [json] tag) and the closing fence, trimmed again. *)
Theorem stripMarkdownFences_fenced (response body : string) :
  (TrimSpace response = "```json" +:+ body +:+ "```" ->
     stripMarkdownFences response = TrimSpace body) /\
  (TrimSpace response = "```" +:+ body +:+ "```" ->
     HasPrefix body "json" = false ->
     stripMarkdownFences response = TrimSpace body).
Proof.
  unfold Enricher.stripMarkdownFences. split.
  - intros ->. rewrite HasPrefix_app, TrimPrefix_app, TrimSuffix_app. reflexivity.
  - intros -> Hj.
    assert (H1 : HasPrefix ("```" +:+ body +:+ "```") "```json" = false).
    { destruct (HasPrefix _ "```json") eqn:H; [|reflexivity].
      revert H Hj. clear.
      destruct body as [|c1 [|c2 [|c3 [|c4 body]]]]; simpl;
        rewrite ?andb_false_r; intros H Hj; congruence. }
    rewrite H1, HasPrefix_app, TrimPrefix_app, TrimSuffix_app. reflexivity.
Qed.

(** A response without a fence is only trimmed, and a trimmed response
    that opens a fence without closing it loses the opening fence only. *)
Theorem stripMarkdownFences_unfenced (response : string) :
  let s := TrimSpace response in
  (HasPrefix s "```" = false -> HasSuffix s "```" = false ->
     stripMarkdownFences response = TrimSpace s) /\
  (forall body, s = "```json" +:+ body -> HasSuffix body "```" = false ->
     stripMarkdownFences response = TrimSpace body).
Proof.
  cbv zeta. unfold Enricher.stripMarkdownFences. split.
  - intros Hp Hs.
    assert (Hj : HasPrefix (TrimSpace response) "```json" = false).
    { destruct (HasPrefix _ "```json") eqn:H; [|reflexivity].
      apply (HasPrefix_shorter _ "```" "json") in H. congruence. }
    rewrite Hj, Hp. unfold TrimSuffix. by rewrite Hs.
  - intros body -> Hs. rewrite HasPrefix_app, TrimPrefix_app.
    unfold TrimSuffix. by rewrite Hs.
Qed.

(** X12. [Enrich] never returns a list together with an error: every error
    comes with the nil list.  A nil error comes with the positional match
    of the array parsed from the response the retry loop ended with, and
    that list is the slice nothing was appended to (Go's nil slice, the
    empty list here) exactly when the input is empty or the parsed array
    is empty: a nil list with a nil error is a possible result. *)
Theorem Enrich_error_or_match (projects : list Mapper.RawProject) :
  let run := Enrich projects in
  (forall err, enrichErr run = Some err -> enriched run = None) /\
  (enrichErr run = None ->
     exists response lastErr dataList,
       snd (retryLoop (buildBatchPrompt projects) (maxRetries + 1) 0 "" None)
         = Left response lastErr /\
       unmarshalData (stripMarkdownFences response) = inl dataList /\
       enriched run = Some (matchByPosition projects dataList) /\
       (matchByPosition projects dataList = [] <->
        projects = [] \/ dataList = [])).
Proof.
  cbv zeta. unfold Enricher.Enrich.
  destruct (retryLoop _ _ _ _ _) as [n [err|response lastErr]]; simpl;
    [split; [reflexivity|discriminate]|].
  destruct (if String.eqb response "" then lastErr else None); simpl;
    [split; [reflexivity|discriminate]|].
  destruct (unmarshalData _) as [dataList|err] eqn:Hparse; simpl;
    [|split; [reflexivity|discriminate]].
  split; [discriminate|]. intros _.
  exists response, lastErr, dataList. repeat split; try done.
  - intros Hnil. apply (f_equal length) in Hnil.
    rewrite EnricherFacts.matchByPosition_length in Hnil. simpl in Hnil.
    destruct projects; [by left|]. destruct dataList; [by right|].
    simpl in Hnil. lia.
  - rewrite EnricherFacts.matchByPosition_zip.
    intros [->| ->]; [reflexivity|]. by destruct projects.
Qed.

(** X13. When the first call succeeds, [Enrich] makes that one call, never
    waits (the context is not consulted), and returns the positional match
    of the parsed response, or the parse error with no list. *)
Theorem Enrich_first_call (projects : list Mapper.RawProject) :
  genErr (GenerateContent 0 (buildBatchPrompt projects)) = None ->
  Enrich projects =
  parsed 1 projects (text (GenerateContent 0 (buildBatchPrompt projects))).
Proof.
  intros Hok. unfold Enricher.Enrich, parsed.
  change (maxRetries + 1) with (S maxRetries). cbn [Enricher.retryLoop].
  rewrite Hok. cbn [Nat.ltb Nat.leb]. cbv iota beta.
  by destruct (String.eqb _ "").
Qed.

Lemma retryLoop_next userPrompt remaining attempt response lastErr err :
  (0 < attempt -> ctxDone attempt = None) ->
  genErr (GenerateContent attempt userPrompt) = Some err ->
  isRateLimit err = true ->
  retryLoop userPrompt (S remaining) attempt response lastErr =
  let '(n, exit) :=
    retryLoop userPrompt remaining (S attempt)
      (text (GenerateContent attempt userPrompt)) (Some err) in
  (S n, exit).
Proof.
  intros Hctx He Hm. cbn [Enricher.retryLoop].
  assert (Hno : (if Nat.ltb 0 attempt then ctxDone attempt else None) = None).
  { destruct (Nat.ltb_spec 0 attempt); [by apply Hctx|reflexivity]. }
  rewrite Hno, He. unfold isRateLimit in Hm.
  by rewrite <- negb_orb, Hm.
Qed.

(** After [k >= 1] rate-limited attempts with a live context, the loop is
    at attempt [k] with the last error recorded. *)
Lemma retryLoop_after userPrompt k :
  forall remaining attempt response lastErr,
  (forall j, j <= k -> 0 < attempt + j -> ctxDone (attempt + j) = None) ->
  (forall j, j <= k -> exists e,
      genErr (GenerateContent (attempt + j) userPrompt) = Some e /\
      isRateLimit e = true) ->
  exists e,
    genErr (GenerateContent (attempt + k) userPrompt) = Some e /\
    retryLoop userPrompt (S k + remaining) attempt response lastErr =
    let '(n, exit) :=
      retryLoop userPrompt remaining (S (attempt + k))
        (text (GenerateContent (attempt + k) userPrompt)) (Some e) in
    (S k + n, exit).
Proof.
  induction k as [|k IH]; intros remaining attempt response lastErr Hctx Hrl.
  - destruct (Hrl 0 (Nat.le_refl 0)) as (e & He & Hm).
    replace (attempt + 0) with attempt in * by lia.
    exists e. split; [exact He|].
    change (S 0 + remaining) with (S remaining).
    rewrite (retryLoop_next _ _ _ _ _ e);
      [by destruct (retryLoop _ _ _ _ _)| |exact He|exact Hm].
    intros Hpos. specialize (Hctx 0 (Nat.le_refl 0)).
    replace (attempt + 0) with attempt in Hctx by lia. by apply Hctx.
  - destruct (Hrl 0 (Nat.le_0_l _)) as (e0 & He0 & Hm0).
    replace (attempt + 0) with attempt in * by lia.
    destruct (IH remaining (S attempt)
                (text (GenerateContent attempt userPrompt)) (Some e0))
      as (e & He & Hloop).
    { intros j Hj Hpos. replace (S attempt + j) with (attempt + S j) by lia.
      apply Hctx; lia. }
    { intros j Hj. replace (S attempt + j) with (attempt + S j) by lia.
      apply Hrl. lia. }
    replace (S attempt + k) with (attempt + S k) in * by lia.
    exists e. split; [exact He|].
    change (S (S k) + remaining) with (S (S k + remaining)).
    rewrite (retryLoop_next _ _ _ _ _ e0); [|intros Hpos|exact He0|exact Hm0].
    + rewrite Hloop. by destruct (retryLoop userPrompt remaining _ _ _).
    + specialize (Hctx 0 (Nat.le_0_l _)).
      replace (attempt + 0) with attempt in Hctx by lia. by apply Hctx.
Qed.

Lemma retryLoop_reaches userPrompt k :
  1 <= k -> k <= maxRetries ->
  rateLimitedBefore userPrompt k ->
  exists e,
    genErr (GenerateContent (k - 1) userPrompt) = Some e /\
    retryLoop userPrompt (maxRetries + 1) 0 "" None =
    let '(n, exit) :=
      retryLoop userPrompt (maxRetries + 1 - k) k
        (text (GenerateContent (k - 1) userPrompt)) (Some e) in
    (k + n, exit).
Proof.
  intros Hk1 Hk3 [Hctx Hrl].
  destruct k as [|k]; [lia|].
  replace (S k - 1) with k by lia.
  destruct (retryLoop_after userPrompt k (maxRetries + 1 - S k) 0 "" None)
    as (e & He & Hloop).
  { intros j Hj Hpos. apply Hctx; simpl in *; lia. }
  { intros j Hj. apply Hrl. simpl. lia. }
  change (0 + k) with k in *.
  exists e. split; [exact He|].
  replace (S k + (maxRetries + 1 - S k)) with (maxRetries + 1) in Hloop by lia.
  exact Hloop.
Qed.

(** X14. Retrying works: when attempts [0] to [k - 1] were rate-limited and the
    call at attempt [k <= 3] succeeds with a non-empty text, [Enrich] has
    made [k + 1] calls and returns what that text parses to. *)
Theorem Enrich_succeeds_after_retries (projects : list Mapper.RawProject) (k : nat) :
  let userPrompt := buildBatchPrompt projects in
  1 <= k -> k <= maxRetries ->
  rateLimitedBefore userPrompt k ->
  ctxDone k = None ->
  genErr (GenerateContent k userPrompt) = None ->
  text (GenerateContent k userPrompt) <> ""%string ->
  Enrich projects = parsed (k + 1) projects (text (GenerateContent k userPrompt)).
Proof.
  cbv zeta. intros Hk1 Hk3 Hbefore Hctx Hok Htext.
  destruct (retryLoop_reaches _ k Hk1 Hk3 Hbefore) as (e & He & Hloop).
  unfold Enricher.Enrich, Enricher.parsed. rewrite Hloop.
  replace (maxRetries + 1 - k) with (S (maxRetries - k)) by lia.
  cbn [Enricher.retryLoop].
  replace (Nat.ltb 0 k) with true by (symmetry; apply Nat.ltb_lt; lia).
  rewrite Hctx, Hok. apply String.eqb_neq in Htext. rewrite Htext.
  by destruct (unmarshalData _).
Qed.

(** X15. A successful call that returns the empty text after at least one
    rate-limited attempt is reported as if the retries were exhausted:
    [Enrich] fails with ["gemini after 3 retries: "] and the last rate-limit
    error, although it made only [k + 1] calls. *)
Theorem Enrich_empty_after_retry (projects : list Mapper.RawProject) (k : nat) :
  let userPrompt := buildBatchPrompt projects in
  1 <= k -> k <= maxRetries ->
  rateLimitedBefore userPrompt k ->
  ctxDone k = None ->
  GenerateContent k userPrompt = mkGenerated "" None ->
  exists lastErr,
    genErr (GenerateContent (k - 1) userPrompt) = Some lastErr /\
    Enrich projects =
      mkEnrichRun (k + 1) None
        (Some ("gemini after 3 retries: " +:+ lastErr)).
Proof.
  cbv zeta. intros Hk1 Hk3 Hbefore Hctx Hgen.
  destruct (retryLoop_reaches _ k Hk1 Hk3 Hbefore) as (e & He & Hloop).
  exists e. split; [exact He|].
  unfold Enricher.Enrich. rewrite Hloop.
  replace (maxRetries + 1 - k) with (S (maxRetries - k)) by lia.
  cbn [Enricher.retryLoop].
  replace (Nat.ltb 0 k) with true by (symmetry; apply Nat.ltb_lt; lia).
  by rewrite Hctx, Hgen.
Qed.

(** X16. Cancellation during a backoff wait: when the context is done before
    the wait preceding attempt [k] elapses, [Enrich] returns the context's
    error as it is, without a list, after the [k] calls already made. *)
Theorem Enrich_cancelled (projects : list Mapper.RawProject) (k : nat)
    (ctxErr : error) :
  let userPrompt := buildBatchPrompt projects in
  1 <= k -> k <= maxRetries ->
  rateLimitedBefore userPrompt k ->
  ctxDone k = Some ctxErr ->
  Enrich projects = mkEnrichRun k None (Some ctxErr).
Proof.
  cbv zeta. intros Hk1 Hk3 Hbefore Hctx.
  destruct (retryLoop_reaches _ k Hk1 Hk3 Hbefore) as (e & He & Hloop).
  unfold Enricher.Enrich. rewrite Hloop.
  replace (maxRetries + 1 - k) with (S (maxRetries - k)) by lia.
  cbn [Enricher.retryLoop].
  replace (Nat.ltb 0 k) with true by (symmetry; apply Nat.ltb_lt; lia).
  rewrite Hctx. by replace (k + 0) with k by lia.
Qed.

End WithServices.
Lemma promptEntry_truncates_witness :
  String.length (Mapper.ReadmeRaw Demo.rawLong) = 1502 /\
  String.length (entryReadme (promptEntry Demo.rawLong)) = 1500 /\
  (String.length (Mapper.ReadmeRaw Demo.rawTool) <= maxReadmeChars ->
     entryReadme (promptEntry Demo.rawTool) = Mapper.ReadmeRaw Demo.rawTool).
Proof.
  split; [vm_compute; reflexivity|]. split.
  - rewrite (proj1 (proj2 (proj2 (promptEntry_truncates Demo.rawLong)))).
    vm_compute. reflexivity.
  - exact (proj2 (proj2 (proj2 (promptEntry_truncates Demo.rawTool)))).
Defined.

Lemma buildBatchPrompt_entries_witness :
  Demo.marshalEntries (map promptEntry [Demo.rawTool; Demo.rawSite]) = inl "[tool,site]"%string /\
  buildBatchPrompt Demo.marshalEntries [Demo.rawTool; Demo.rawSite] = "[tool,site]"%string.
Proof.
  split; [reflexivity|].
  exact (proj1 (buildBatchPrompt_entries Demo.marshalEntries [Demo.rawTool; Demo.rawSite])
           _ eq_refl).
Defined.

Lemma stripMarkdownFences_fenced_witness :
  let nl := String (ascii_of_nat 10) "" in
  let response := text (Demo.answerShort 0 "") in
  Demo.TrimSpace response = "```json" +:+ (nl +:+ "[tool]" +:+ nl) +:+ "```" /\
  stripMarkdownFences Demo.TrimSpace response = "[tool]"%string.
Proof.
  cbv zeta. split; [reflexivity|].
  rewrite (proj1 (stripMarkdownFences_fenced Demo.TrimSpace
                    (text (Demo.answerShort 0 ""))
                    (String (ascii_of_nat 10) "" +:+ "[tool]" +:+ String (ascii_of_nat 10) ""))
             eq_refl).
  reflexivity.
Defined.

Lemma stripMarkdownFences_unfenced_witness :
  HasPrefix (Demo.TrimSpace " [tool] ") "```" = false /\
  HasSuffix (Demo.TrimSpace " [tool] ") "```" = false /\
  stripMarkdownFences Demo.TrimSpace " [tool] " = "[tool]"%string.
Proof.
  split; [reflexivity|]. split; [reflexivity|].
  rewrite (proj1 (stripMarkdownFences_unfenced Demo.TrimSpace " [tool] ") eq_refl eq_refl).
  reflexivity.
Defined.

Lemma Enrich_first_call_witness :
  genErr (Demo.answerShort 0 (buildBatchPrompt Demo.marshalEntries [Demo.rawTool])) = None /\
  calls (Enrich Demo.TrimSpace Demo.marshalEntries Demo.answerShort
           Demo.doneAtFirstWait Demo.unmarshalData [Demo.rawTool]) = 1.
Proof.
  split; [reflexivity|].
  rewrite (Enrich_first_call Demo.TrimSpace Demo.marshalEntries Demo.answerShort
             Demo.doneAtFirstWait Demo.unmarshalData [Demo.rawTool] eq_refl).
  reflexivity.
Defined.

Lemma demo_rateLimitedBefore (g : nat -> string -> Generated) userPrompt :
  g 0 userPrompt = mkGenerated "" (Some "googleapi: Error 429: quota"%string) ->
  Enricher.rateLimitedBefore g Demo.neverDone userPrompt 1.
Proof.
  intros Hg. split; [reflexivity|].
  intros j Hj. assert (j = 0) as -> by lia.
  exists "googleapi: Error 429: quota"%string. rewrite Hg. split; reflexivity.
Defined.

Lemma Enrich_succeeds_after_retries_witness :
  Enrich Demo.TrimSpace Demo.marshalEntries Demo.answersSecond Demo.neverDone
    Demo.unmarshalData [Demo.rawTool; Demo.rawSite] =
  mkEnrichRun 2 (Some [enrichedProject Demo.rawTool Demo.dataTool]) None.
Proof.
  rewrite (Enrich_succeeds_after_retries Demo.TrimSpace Demo.marshalEntries
             Demo.answersSecond Demo.neverDone Demo.unmarshalData
             [Demo.rawTool; Demo.rawSite] 1);
    [reflexivity|lia|unfold maxRetries; lia| |reflexivity|reflexivity|discriminate].
  by apply demo_rateLimitedBefore.
Defined.

Lemma Enrich_empty_after_retry_witness :
  Enrich Demo.TrimSpace Demo.marshalEntries Demo.emptySecond Demo.neverDone
    Demo.unmarshalData [Demo.rawTool] =
  mkEnrichRun 2 None
    (Some "gemini after 3 retries: googleapi: Error 429: quota"%string).
Proof.
  destruct (Enrich_empty_after_retry Demo.TrimSpace Demo.marshalEntries
              Demo.emptySecond Demo.neverDone Demo.unmarshalData [Demo.rawTool] 1)
    as (lastErr & Hlast & Hrun);
    [lia|unfold maxRetries; lia|by apply demo_rateLimitedBefore
    |reflexivity|reflexivity|].
  rewrite Hrun. injection Hlast as <-. reflexivity.
Defined.

Lemma Enrich_cancelled_witness :
  Enrich Demo.TrimSpace Demo.marshalEntries Demo.alwaysRateLimited
    Demo.doneAtFirstWait Demo.unmarshalData [Demo.rawTool] =
  mkEnrichRun 1 None (Some "context canceled"%string).
Proof.
  apply (Enrich_cancelled Demo.TrimSpace Demo.marshalEntries Demo.alwaysRateLimited
           Demo.doneAtFirstWait Demo.unmarshalData [Demo.rawTool] 1);
    [lia|unfold maxRetries; lia| |reflexivity].
  split; [intros j Hj Hpos; lia|].
  intros j Hj. assert (j = 0) as -> by lia.
  exists "googleapi: Error 429: RESOURCE_EXHAUSTED"%string. split; reflexivity.
Defined.

Lemma Enrich_error_or_match_witness :
  let nullRun :=
    Enrich Demo.TrimSpace Demo.marshalEntries Demo.answersNull Demo.neverDone
      Demo.unmarshalData [Demo.rawTool] in
  let deniedRun :=
    Enrich Demo.TrimSpace Demo.marshalEntries Demo.rateLimitedThenDenied
      Demo.neverDone Demo.unmarshalData [Demo.rawTool] in
  (enrichErr nullRun = None /\ enriched nullRun = Some []) /\
  (enrichErr deniedRun =
     Some "gemini: googleapi: Error 403: API key not valid"%string /\
   enriched deniedRun = None).
Proof.
  cbv zeta. split; (split; [reflexivity|]).
  - destruct (proj2 (Enrich_error_or_match Demo.TrimSpace Demo.marshalEntries
                Demo.answersNull Demo.neverDone Demo.unmarshalData [Demo.rawTool])
                eq_refl)
      as (response & lastErr & dataList & Hexit & Hparse & Hout & Hnil).
    injection Hexit as <- _. injection Hparse as <-. exact Hout.
  - exact (proj1 (Enrich_error_or_match Demo.TrimSpace Demo.marshalEntries
             Demo.rateLimitedThenDenied Demo.neverDone Demo.unmarshalData
             [Demo.rawTool]) _ eq_refl).
Defined.

End EnricherMore.

(** ** Remote store client: lookups, locale choice and write outcomes *)

Module ContentfulMore.
Import GoStrings GoStringsFacts Contentful ContentfulFacts.

Lemma mapIndex_elem (entries : list (string * value)) k v :
  mapIndex entries k = Some v -> (k, v) ∈ entries.
Proof.
  induction entries as [|[k' v'] entries IH]; simpl; [discriminate|].
  destruct (String.eqb_spec k' k) as [->|Hne].
  - intros [= ->]. apply list_elem_of_here.
  - intros H. apply list_elem_of_further, IH, H.
Qed.

Lemma mapIndex_NoDup (entries : list (string * value)) k v :
  NoDup entries.*1 -> (k, v) ∈ entries -> mapIndex entries k = Some v.
Proof.
  induction entries as [|[k' v'] entries IH]; simpl; intros Hnd Hin.
  - by apply elem_of_nil in Hin.
  - apply NoDup_cons in Hnd as [Hk' Hnd].
    apply elem_of_cons in Hin as [[= <- <-]|Hin].
    + by rewrite String.eqb_refl.
    + destruct (String.eqb_spec k' k) as [->|Hne]; [|by apply IH].
      destruct Hk'. apply list_elem_of_fmap. by exists (k, v).
Qed.

Section Client.
Variable decodeProjects : value -> Decode.
Variables CMABaseURL SpaceID Token : string.
Variable marshalBody : WriteBody -> string + error.
Variable newRequestError : string -> string -> option error.
Variable httpDo : Request -> Response + error.
Variable decodeEntryItem : string -> EntryItem + error.
Variable encodeQuery : list (string * string) -> string.
Variable decodeEntries : string -> list EntryItem + error.
Variable quote : string -> string.

Local Abbreviation GetProjects := (GetProjects decodeProjects).
Local Abbreviation UpdateProjects :=
  (UpdateProjects CMABaseURL SpaceID Token marshalBody newRequestError httpDo
     decodeEntryItem).
Local Abbreviation findRequest := (findRequest CMABaseURL SpaceID Token encodeQuery).
Local Abbreviation findProjectsBySectionID :=
  (findProjectsBySectionID CMABaseURL SpaceID Token newRequestError httpDo
     encodeQuery decodeEntries quote).

(** X17. [GetProjects] never returns a nil result with a nil error: when the
    error is nil, the result is present and carries the identity, the
    version and all the fields of the entry that was looked up, through
    [GetEntry] or, if that failed, through the fallback. *)
Theorem GetProjects_no_error (getEntry findBySectionID : EntryItem + error) :
  snd (GetProjects getEntry findBySectionID) = None ->
  exists r entry,
    GetProjects getEntry findBySectionID = (Some r, None) /\
    (getEntry = inl entry \/
     ((exists e, getEntry = inr e) /\ findBySectionID = inl entry)) /\
    carries r entry /\ RawFields r = Fields entry /\
    (Fields entry !! "content"%string = None -> Projects r = []).
Proof.
  unfold Contentful.GetProjects.
  assert (Hcase : forall entry,
    let out :=
      match Fields entry !! "content"%string with
      | None =>
          (Some {| Projects := []; EntryID := Sys.ID (sys entry);
                   Version := Sys.Version (sys entry);
                   RawFields := Fields entry |}, None)
      | Some contentField =>
          match contentField with
          | VMap localeMap =>
              match decodeProjects
                      match mapIndex localeMap "en-US" with
                      | Some v => v
                      | None => rangeFirst localeMap
                      end with
              | MarshalError err => (None, Some ("marshal content: " +:+ err))
              | UnmarshalError err => (None, Some ("unmarshal projects: " +:+ err))
              | Decoded projects =>
                  (Some {| Projects := projects; EntryID := Sys.ID (sys entry);
                           Version := Sys.Version (sys entry);
                           RawFields := Fields entry |}, None)
              end
          | _ =>
              (Some {| Projects := []; EntryID := Sys.ID (sys entry);
                       Version := Sys.Version (sys entry);
                       RawFields := Fields entry |},
               Some "content field is not locale-wrapped"%string)
          end
      end in
    snd out = None ->
    exists r, out = (Some r, None) /\ carries r entry /\
              RawFields r = Fields entry /\
              (Fields entry !! "content"%string = None -> Projects r = [])).
  { intros entry. cbv zeta.
    destruct (Fields entry !! "content"%string) as [contentField|].
    - destruct contentField; simpl; try discriminate.
      destruct (decodeProjects _); simpl; try discriminate.
      intros _. eexists. repeat split. discriminate.
    - intros _. by eexists. }
  destruct getEntry as [entry|e1].
  - intros H. destruct (Hcase entry H) as (r & Hr & Hc & Hf & Hp).
    exists r, entry. split; [exact Hr|]. split; [by left|].
    split; [exact Hc|split; [exact Hf|exact Hp]].
  - destruct findBySectionID as [entry|e2]; [|discriminate].
    intros H. destruct (Hcase entry H) as (r & Hr & Hc & Hf & Hp).
    exists r, entry. split; [exact Hr|]. split; [right; split; [by eexists|done]|].
    split; [exact Hc|split; [exact Hf|exact Hp]].
Qed.

(** The fallback: when [GetEntry] succeeds its entry is used and the
    fallback does not matter; when [GetEntry] fails, for whatever reason,
    the outcome is that of the entry the fallback found; and when both fail
    the result is nil and the error is the fallback's, prefixed, the error
    of [GetEntry] being dropped. *)
Theorem GetProjects_fallback (entry : EntryItem) (e1 e2 : error)
    (fallback fallback' : EntryItem + error) :
  GetProjects (inl entry) fallback = GetProjects (inl entry) fallback' /\
  GetProjects (inr e1) (inl entry) = GetProjects (inl entry) fallback /\
  GetProjects (inr e1) (inr e2) = (None, Some ("get projects entry: " +:+ e2)).
Proof. repeat split. Qed.

(** X18. With an [en-US] entry in the locale map, the projects and the error
    returned do not depend on the order in which the map is visited: the
    [en-US] content is decoded wherever it stands. *)
Theorem GetProjects_locale_order (s : Sys.Sys) (fields : gmap string value)
    (localeMap localeMap' : list (string * value)) (v : value)
    (fallback : EntryItem + error) :
  NoDup localeMap.*1 ->
  Permutation localeMap localeMap' ->
  mapIndex localeMap "en-US" = Some v ->
  let get l :=
    GetProjects (inl (mkEntryItem s (<["content"%string := VMap l]> fields)))
      fallback in
  snd (get localeMap) = snd (get localeMap') /\
  (Projects <$> fst (get localeMap)) = (Projects <$> fst (get localeMap')) /\
  (forall projects, decodeProjects v = Decoded projects ->
     (Projects <$> fst (get localeMap')) = Some projects /\
     snd (get localeMap') = None).
Proof.
  intros Hnd Hperm Hv. cbv zeta.
  assert (Hv' : mapIndex localeMap' "en-US" = Some v).
  { apply mapIndex_NoDup.
    - by rewrite <- Hperm.
    - rewrite <- Hperm. by apply mapIndex_elem. }
  unfold Contentful.GetProjects. cbn [Fields].
  rewrite !lookup_insert_eq, Hv, Hv'.
  destruct (decodeProjects v);
    (split; [reflexivity|split; [reflexivity|]]);
    intros ps [=]; subst; split; reflexivity.
Qed.

(** What an update writes, a later read finds: the written container is
    locale-wrapped and is read under [en-US], so the read hands exactly the
    written collection to the decoder and cannot fail for lack of locale
    wrapping. *)
Theorem GetProjects_after_update (result : ProjectsResult)
    (projects : list Project) (s : Sys.Sys) (fallback : EntryItem + error) :
  let written := mkEntryItem s (updateFields result projects) in
  GetProjects (inl written) fallback =
  match decodeProjects (VProjects projects) with
  | MarshalError err => (None, Some ("marshal content: " +:+ err))
  | UnmarshalError err => (None, Some ("unmarshal projects: " +:+ err))
  | Decoded decoded =>
      (Some {| Projects := decoded; EntryID := Sys.ID s;
               Version := Sys.Version s;
               RawFields := updateFields result projects |}, None)
  end.
Proof.
  cbv zeta. unfold Contentful.GetProjects. cbn [Fields sys].
  by rewrite updateFields_content.
Qed.

(** X19. A second update replaces the collection, it does not accumulate: the
    fields written on top of already written fields are those a single
    update with the newer collection writes, and an update adds at most the
    ["content"] key. *)
Theorem updateFields_overwrites (result : ProjectsResult)
    (projects projects' : list Project) :
  let again :=
    {| Projects := projects; EntryID := EntryID result;
       Version := Version result;
       RawFields := updateFields result projects |} in
  updateFields again projects' = updateFields result projects' /\
  dom (updateFields result projects) =
    {["content"%string]} ∪ dom (RawFields result).
Proof.
  cbv zeta. unfold updateFields. cbn [RawFields]. cbv zeta.
  rewrite !copyFields_id. split.
  - apply insert_insert_eq.
  - apply dom_insert_L.
Qed.

(** X20. The outcome of [UpdateProjects]: a non-nil error always comes with
    version 0; a nil error means that a request was sent, answered with
    status 200 and a body that decoded, and the version returned is the one
    in that body; and no request is sent exactly when the body could not be
    encoded or the request could not be built. *)
Theorem UpdateProjects_outcome (result : ProjectsResult) (projects : list Project) :
  let run := UpdateProjects result projects in
  (forall err, updateErr run = Some err -> newVersion run = 0%Z) /\
  (updateErr run = None ->
     exists req resp respBody updated,
       sent run = Some req /\ httpDo req = inl resp /\
       StatusCode resp = 200%Z /\ ReadAll resp = inl respBody /\
       decodeEntryItem respBody = inl updated /\
       newVersion run = Sys.Version (sys updated)) /\
  (sent run = None <->
     (exists err, marshalBody {| fields := updateFields result projects |} = inr err) \/
     (exists err, newRequestError "PUT" (updateEndpoint CMABaseURL SpaceID result)
                    = Some err)).
Proof.
  cbv zeta. unfold Contentful.UpdateProjects.
  destruct (marshalBody _) as [bodyBytes|merr] eqn:Hm; simpl.
  2:{ repeat split; try discriminate; try reflexivity. left. by eexists. }
  destruct (newRequestError _ _) as [rerr|] eqn:Hr; simpl.
  { repeat split; try discriminate; try reflexivity. right. by eexists. }
  assert (Hsent : forall A (x : A), Some x = None <->
            (exists err : error, @inl string error bodyBytes = inr err) \/
            (exists err : error, @None error = Some err)).
  { intros A x. split; [discriminate|]. intros [[? [=]]|[? [=]]]. }
  destruct (httpDo _) as [resp|derr] eqn:Hd; simpl.
  2:{ repeat split; try discriminate; try reflexivity; apply Hsent. }
  destruct (Z.eqb_spec (StatusCode resp) 200) as [Hs|Hs]; simpl.
  - destruct (ReadAll resp) as [respBody|e] eqn:Hb; simpl.
    + destruct (decodeEntryItem respBody) as [updated|e] eqn:Hu; simpl.
      * split; [discriminate|]. split; [|apply Hsent].
        intros _. eexists; exists resp, respBody, updated.
        split; [reflexivity|]. by repeat split.
      * repeat split; try discriminate; try reflexivity; apply Hsent.
    + repeat split; try discriminate; try reflexivity; apply Hsent.
  - destruct (ReadAll resp); simpl;
      repeat split; try discriminate; try reflexivity; apply Hsent.
Qed.


(** X22. A status other than 200 on the fallback query is an error that
    contains the status code and, when it could be read, the body of the
    response; no entry is returned. *)
Theorem findProjectsBySectionID_status (sectionID : string) (resp : Response) :
  newRequestError "GET" (URL (findRequest sectionID)) = None ->
  httpDo (findRequest sectionID) = inl resp ->
  StatusCode resp <> 200%Z ->
  exists msg,
    findProjectsBySectionID sectionID = inr msg /\
    Contains msg (itoa (StatusCode resp)) = true /\
    (forall body, ReadAll resp = inl body ->
       Contains msg body = true /\
       msg = "CMA query failed (" +:+ itoa (StatusCode resp) +:+ "): " +:+ body).
Proof.
  intros Hr Hd Hs. unfold Contentful.findProjectsBySectionID. rewrite Hr, Hd.
  destruct (Z.eqb_spec (StatusCode resp) 200) as [|_]; [contradiction|]. simpl.
  destruct (ReadAll resp) as [body|e]; eexists;
    (split; [reflexivity|]); (split; [apply Contains_middle|]).
  - intros ? [= <-]. split; [|reflexivity].
    do 2 apply Contains_app_r. apply Contains_end.
  - intros ? [=].
Qed.

End Client.
Lemma GetProjects_no_error_witness :
  snd (GetProjects RefDecoder.decode (inr "404"%string) (inl Demo.freshEntry)) = None /\
  exists r,
    GetProjects RefDecoder.decode (inr "404"%string) (inl Demo.freshEntry)
      = (Some r, None) /\
    carries r Demo.freshEntry.
Proof.
  split; [vm_compute; reflexivity|].
  destruct (GetProjects_no_error RefDecoder.decode (inr "404"%string)
              (inl Demo.freshEntry))
    as (r & entry & Hr & [Hget|[_ Hfb]] & Hc & _);
    [vm_compute; reflexivity|discriminate|].
  exists r. split; [exact Hr|]. by injection Hfb as <-.
Defined.

Lemma GetProjects_locale_order_witness :
  NoDup Demo.twoLocales.*1 /\
  Permutation Demo.twoLocales (reverse Demo.twoLocales) /\
  mapIndex Demo.twoLocales "en-US" = Some VNil /\
  (Projects <$> fst (GetProjects RefDecoder.decode
     (inl (mkEntryItem (Sys.mkSys "6Xy" 7)
             (<["content"%string := VMap (reverse Demo.twoLocales)]> ∅)))
     (inr "unused"%string))) = Some [].
Proof.
  assert (Hnd : NoDup Demo.twoLocales.*1).
  { repeat constructor; rewrite ?elem_of_cons, ?elem_of_nil; intros H;
      repeat destruct H as [H|H]; discriminate || done. }
  split; [exact Hnd|]. split; [apply Permutation_sym, reverse_Permutation|].
  split; [reflexivity|].
  exact (proj1 (proj2 (proj2 (GetProjects_locale_order RefDecoder.decode
           (Sys.mkSys "6Xy" 7) ∅ Demo.twoLocales (reverse Demo.twoLocales) VNil
           (inr "unused"%string) Hnd
           (Permutation_sym (reverse_Permutation _)) eq_refl)) [] eq_refl)).
Defined.

Lemma UpdateProjects_outcome_witness :
  let run :=
    UpdateProjects "https://api.contentful.com" "space" "token"
      Demo.marshalBody Demo.newRequestError Demo.okStore Demo.decodeUpdated
      Demo.demoResult Demo.demoProjects in
  updateErr run = None /\ newVersion run = 8%Z /\
  exists req resp, sent run = Some req /\ Demo.okStore req = inl resp /\
                   StatusCode resp = 200%Z.
Proof.
  cbv zeta. split; [vm_compute; reflexivity|]. split; [vm_compute; reflexivity|].
  destruct (proj1 (proj2 (UpdateProjects_outcome "https://api.contentful.com"
              "space" "token" Demo.marshalBody Demo.newRequestError Demo.okStore
              Demo.decodeUpdated Demo.demoResult Demo.demoProjects)))
    as (req & resp & respBody & updated & Hs & Hd & Hst & _);
    [vm_compute; reflexivity|].
  by exists req, resp.
Defined.


Lemma findProjectsBySectionID_status_witness :
  exists msg,
    findProjectsBySectionID "https://api.contentful.com" "space" "token"
      Demo.newRequestError Demo.notFoundStore Demo.encodePairs Demo.decodeItems
      Demo.quoted "projects" = inr msg /\
    Contains msg "404" = true /\
    msg = "CMA query failed (404): NotFound"%string.
Proof.
  destruct (findProjectsBySectionID_status "https://api.contentful.com" "space"
              "token" Demo.newRequestError Demo.notFoundStore Demo.encodePairs
              Demo.decodeItems Demo.quoted "projects"
              (mkResponse 404 (inl "NotFound"%string)) eq_refl eq_refl
              ltac:(discriminate))
    as (msg & Hmsg & Hcode & Hbody).
  exists msg. split; [exact Hmsg|]. split; [exact Hcode|].
  exact (proj2 (Hbody _ eq_refl)).
Defined.

Example findRequest_run :
  URL (findRequest "https://api.contentful.com" "space" "token"
         Demo.encodePairs "projects") =
  "https://api.contentful.com/spaces/space/environments/master/entries?content_type=siteSection&fields.sectionId=projects&limit=1"%string.
Proof. reflexivity. Qed.

End ContentfulMore.

(** ** Detail collector: what holds at every moment of a run *)

Module SyncerMore.
Import Github Syncer SyncerFacts.

Section WithClient.
Context {sorter : SliceSorter}.
Variable GetRepoLanguages : nat -> Repo -> list (string * Z) * option error.
Variable GetRepoREADME : nat -> Repo -> string * option error.

Local Abbreviation stepWith := (stepWith GetRepoLanguages GetRepoREADME).
Local Abbreviation exec := (exec GetRepoLanguages GetRepoREADME).




End WithClient.


End SyncerMore.

(** ** The pipeline and the command *)

Module PipelineFacts.
Import GoStrings GoStringsFacts Pipeline.

Lemma GetProjects_not_nil_nil decode getEntry fallback :
  Contentful.GetProjects decode getEntry fallback <> (None, None).
Proof.
  unfold Contentful.GetProjects.
  destruct getEntry as [entry|e1]; [|destruct fallback as [entry|e2]];
    try discriminate;
    (destruct (Contentful.Fields entry !! "content"%string) as [[]|];
     try discriminate; destruct (decode _); discriminate).
Qed.

Ltac run_cases :=
  unfold Run;
  repeat match goal with
  | |- context [match ?x with _ => _ end] => destruct x eqn:?
  end; cbn [outcome geminiCalls storeOps].

Section WithWorld.
Context {sorter : SliceSorter}.
Variable w : World.
Variable cfg : Config.Config.

Local Abbreviation Run := (Run w cfg).
Local Abbreviation filtered repos :=
  (Mapper.FilterRepos (ToLower w) repos (Config.GitHubUsername cfg)).

(** X24. When no repo survives the filter, [Run] reports success with zero
    counts and touches neither the enrichment service nor the store: the
    remote document is left as it is, not emptied. *)
Theorem Run_nothing_to_sync (repos : list Github.Repo) :
  ListRepos w = inl repos ->
  filtered repos = [] ->
  Run = mkRunTrace (Returns (Some (Syncer.mkSyncStats 0 0 "success")) None) 0 [].
Proof. intros Hl Hf. unfold Pipeline.Run. by rewrite Hl, Hf. Qed.


(** X26. [Run] publishes only what it has just written: a publish call is
    always the third store call, after a read without error and an update
    without error, and it names the entry id of the result read and the
    version returned by the update. *)
Theorem Run_publishes_written (entryID : string) (version : Z) :
  OpPublishEntry entryID version ∈ storeOps Run ->
  exists result projects,
    getProjects w cfg = (Some result, None) /\
    Contentful.updateErr (updateProjects w cfg result projects) = None /\
    entryID = Contentful.EntryID result /\
    version = Contentful.newVersion (updateProjects w cfg result projects) /\
    storeOps Run =
      [OpGetProjects (Config.EntryID cfg); OpUpdateProjects result projects;
       OpPublishEntry entryID version].
Proof.
  run_cases; intros Hin;
    repeat (apply elem_of_cons in Hin as [Hin|Hin]; try discriminate);
    try (by apply elem_of_nil in Hin);
    injection Hin as -> ->; eexists _, _; by repeat split.
Qed.

(** X27. [Run] panics only in [ApplyFeatured], that is only for a negative
    [MaxProjects], and then before any call on the store; with a
    non-negative [MaxProjects] it always returns. *)
Theorem Run_panics :
  (outcome Run = Panics ->
     (Config.MaxProjects cfg < 0)%Z /\ storeOps Run = []) /\
  ((0 <= Config.MaxProjects cfg)%Z ->
     exists stats err, outcome Run = Returns stats err).
Proof.
  assert (Hget : getProjects w cfg <> (None, None)).
  { unfold getProjects, Contentful.GetProjectsByID. apply GetProjects_not_nil_nil. }
  assert (Hpanic : outcome Run = Panics ->
            (Config.MaxProjects cfg < 0)%Z /\ storeOps Run = []); last first.
  { split; [exact Hpanic|]. intros Hn.
    destruct (outcome Run) as [|stats err] eqn:Hout.
    - destruct (Hpanic eq_refl) as [Hneg _]. lia.
    - by exists stats, err. }
  run_cases; try discriminate; intros _; try congruence.
  - split; [|reflexivity].
    destruct (Z.le_gt_cases 0 (Config.MaxProjects cfg)) as [Hn|Hn]; [|lia].
    match goal with
    | H : Heuristic.ApplyFeatured _ _ _ = None |- _ =>
        rewrite HeuristicFacts.ApplyFeatured_nonneg in H by exact Hn; discriminate
    end.
Qed.

(** X28. The counts of a successful run that had something to sync: [Total]
    is the number of projects written, which is at most [MaxProjects], and
    [NewAdded] is [Total] minus the number of projects read from the store
    before the update, a difference of counts that is negative when the
    collection shrank. *)
Theorem Run_counts (st : Syncer.SyncStats) :
  outcome Run = Returns (Some st) None ->
  storeOps Run <> [] ->
  exists result projects,
    getProjects w cfg = (Some result, None) /\
    storeOps Run =
      [OpGetProjects (Config.EntryID cfg); OpUpdateProjects result projects;
       OpPublishEntry (Contentful.EntryID result)
         (Contentful.newVersion (updateProjects w cfg result projects))] /\
    Syncer.Total st = Z.of_nat (length projects) /\
    (Syncer.Total st <= Config.MaxProjects cfg)%Z /\
    Syncer.NewAdded st =
      (Syncer.Total st - Z.of_nat (length (Contentful.Projects result)))%Z.
Proof.
  run_cases; intros [= <-] Hops; try done.
  eexists _, _. split; [reflexivity|]. split; [reflexivity|].
  split; [reflexivity|]. split; [|reflexivity].
  match goal with
  | H : Heuristic.ApplyFeatured _ _ _ = Some _ |- _ =>
      apply HeuristicFacts.ApplyFeatured_Some in H as [HN ->]
  end.
  cbn [Syncer.Total]. rewrite length_imap, length_take. lia.
Qed.

(** X29. End to end, the number of projects written never exceeds the number
    of repos that survived the filter, nor the number of repos listed:
    enrichment can lose projects and selection can drop some, but no stage
    adds any. *)
Theorem Run_total_bounded (repos : list Github.Repo)
    (GetRepoLanguages : nat -> Github.Repo -> list (string * Z) * option error)
    (GetRepoREADME : nat -> Github.Repo -> string * option error)
    (schedule : list Syncer.Choice) (st : Syncer.SyncStats) :
  ListRepos w = inl repos ->
  Syncer.exec GetRepoLanguages GetRepoREADME schedule
    (Syncer.init (filtered repos)) = Some (fetched w) ->
  Syncer.allDone (fetched w) = true ->
  outcome Run = Returns (Some st) None ->
  (0 <= Syncer.Total st <= Z.of_nat (length (filtered repos)))%Z /\
  (Syncer.Total st <= Z.of_nat (length repos))%Z.
Proof.
  intros Hlist Hexec Hdone Hout.
  assert (Hfl : length (filtered repos) <= length repos).
  { rewrite MapperFacts.FilterRepos_filter. apply List.filter_length_le. }
  assert (Hmain : (0 <= Syncer.Total st <= Z.of_nat (length (filtered repos)))%Z);
    [|split; [exact Hmain|lia]].
  destruct (SyncerFacts.exec_accounted _ _ _ _ _ _ Hexec
              (SyncerFacts.init_accounted _ _ (filtered repos)))
    as [[Hperm Herr] _].
  unfold Syncer.allDone in Hdone.
  destruct (Syncer.unspawned (fetched w)); [|discriminate].
  destruct (Syncer.waiting (fetched w)); [|discriminate].
  destruct (Syncer.running (fetched w)); [|discriminate].
  simpl in Hperm. apply Permutation_length in Hperm.
  rewrite length_fmap, length_imap in Hperm.
  revert Hout. unfold Pipeline.Run. rewrite Hlist.
  destruct (Nat.eqb _ 0); [intros [= <-]; simpl; lia|].
  unfold Syncer.returned. rewrite Herr.
  change (default [] (Some (Syncer.rawProjects (fetched w))))
    with (Syncer.rawProjects (fetched w)).
  destruct (Enricher.enrichErr _); [discriminate|].
  destruct (Heuristic.ApplyFeatured _ _ _) as [projects|] eqn:Happly; [|discriminate].
  apply HeuristicFacts.ApplyFeatured_Some in Happly as [HN ->].
  assert (Hlen : length (default [] (Enricher.enriched
                   (enrich w (Syncer.rawProjects (fetched w)))))
                 <= length (Syncer.rawProjects (fetched w))).
  { destruct (Enricher.enriched _) as [out|] eqn:Hen; [|simpl; lia].
    apply EnricherFacts.Enrich_returns in Hen
      as (response & lastErr & dataList & _ & _ & -> & _).
    simpl. rewrite EnricherFacts.matchByPosition_length. lia. }
  pose proof (sortSlice_perm _ Heuristic.after
                (default [] (Enricher.enriched
                   (enrich w (Syncer.rawProjects (fetched w)))))) as Hsort.
  apply Permutation_length in Hsort.
  destruct (getProjects w cfg) as [[result|] [e|]]; try discriminate.
  destruct (Contentful.updateErr _); [discriminate|].
  destruct (PublishEntry w _ _); [discriminate|].
  intros [= <-]. cbn [Syncer.Total].
  rewrite length_imap, length_take. lia.
Qed.

End WithWorld.

Section Command.
Context {sorter : SliceSorter}.
Variable Getenv : string -> string.
Variable forceFlag : bool.
Variable w : World.

(** X30. The command and the audit trail.  A configuration error ends the
    command before [Run] is called; the audit recorder is called only after
    a run that returned stats and no error; and whatever happens to the
    audit document (unreadable, write refused) the exit result is the same:
    the audit trail never fails a sync. *)
Theorem RunE_audit (actions stamp : string)
    (get : Cmd.BuildLogResult + error)
    (create : list Cmd.BuildLogEntry -> (string * Z) + error)
    (update : Cmd.BuildLogResult -> list Cmd.BuildLogEntry -> Z + error) :
  let cmd := RunE Getenv forceFlag w in
  (forall err, Config.Load Getenv = inr err ->
     cmd = mkCommandRun (Some (Some ("config: " +:+ err))) None []) /\
  (auditCalls cmd <> [] ->
     exit cmd = Some None /\
     exists run st, ran cmd = Some run /\ outcome run = Returns (Some st) None) /\
  exit (RunE Getenv forceFlag (withAudit w actions stamp get create update)) = exit cmd /\
  ran (RunE Getenv forceFlag (withAudit w actions stamp get create update)) = ran cmd.
Proof.
  cbv zeta. unfold RunE. split; [|split].
  - by intros err ->.
  - destruct (Config.Load Getenv) as [cfg|e]; [|done].
    cbv zeta. destruct (outcome _) as [|[st|] [e|]] eqn:Hout; try done.
    intros _. split; [reflexivity|]. by eexists _, _.
  - destruct (Config.Load Getenv) as [cfg|e]; [|done].
    cbv zeta.
    assert (Hsame : forall c, Run (withAudit w actions stamp get create update) c = Run w c)
      by reflexivity.
    rewrite Hsame.
    by destruct (outcome _) as [|[st|] [e|]].
Qed.

End Command.
Local Abbreviation demoRun := (@Run insertionSorter Demo.world Demo.config).

Example Run_demo :
  demoRun =
  mkRunTrace (Returns (Some (Syncer.mkSyncStats 1 1 "success")) None) 1
    [OpGetProjects "projects";
     OpUpdateProjects
       (Contentful.mkProjectsResult [] "6Xy" 1 (Contentful.Fields Demo.freshEntry))
       [Contentful.mkProject "Tool" "beta" "A tool" "Does things" "Does many things"
          "https://github.com/u/beta" ["Go"] ["Fast"] true
          "from-cyan-500 to-blue-600" "Backend" 200];
     OpPublishEntry "6Xy" 8].
Proof. vm_compute. reflexivity. Qed.

Lemma Run_nothing_to_sync_witness :
  Mapper.FilterRepos GoStrings.asciiToLower [Demo.forkRepo] "alberto-moreno-sa" = [] /\
  @Run insertionSorter Demo.worldOfForks Demo.config =
    mkRunTrace (Returns (Some (Syncer.mkSyncStats 0 0 "success")) None) 0 [].
Proof.
  split; [reflexivity|].
  apply (@Run_nothing_to_sync insertionSorter Demo.worldOfForks Demo.config
           [Demo.forkRepo]); reflexivity.
Defined.


Lemma Run_publishes_written_witness :
  OpPublishEntry "6Xy" 8 ∈ storeOps demoRun /\
  exists result, getProjects Demo.world Demo.config = (Some result, None) /\
                 Contentful.EntryID result = "6Xy"%string.
Proof.
  assert (H : OpPublishEntry "6Xy" 8 ∈ storeOps demoRun).
  { assert (Hops : storeOps demoRun !! 2 = Some (OpPublishEntry "6Xy" 8))
      by (vm_compute; reflexivity).
    by apply list_elem_of_lookup_2 in Hops. }
  split; [exact H|].
  destruct (@Run_publishes_written insertionSorter Demo.world Demo.config _ _ H)
    as (result & projects & Hget & _ & Hid & _).
  exists result. split; [exact Hget|]. by symmetry.
Defined.

Lemma Run_panics_witness :
  outcome (@Run insertionSorter Demo.world Demo.negativeConfig) = Panics /\
  storeOps (@Run insertionSorter Demo.world Demo.negativeConfig) = [] /\
  exists stats err, outcome demoRun = Returns stats err.
Proof.
  assert (H : outcome (@Run insertionSorter Demo.world Demo.negativeConfig) = Panics)
    by (vm_compute; reflexivity).
  split; [exact H|]. split.
  - exact (proj2 (proj1 (@Run_panics insertionSorter Demo.world Demo.negativeConfig) H)).
  - apply (proj2 (@Run_panics insertionSorter Demo.world Demo.config)).
    simpl. lia.
Defined.

Lemma Run_counts_witness :
  outcome demoRun = Returns (Some (Syncer.mkSyncStats 1 1 "success")) None /\
  exists result (projects : list Contentful.Project),
    getProjects Demo.world Demo.config = (Some result, None) /\
    1%Z = Z.of_nat (length projects) /\
    1%Z = (1 - Z.of_nat (length (Contentful.Projects result)))%Z.
Proof.
  assert (H : outcome demoRun =
              Returns (Some (Syncer.mkSyncStats 1 1 "success")) None)
    by (vm_compute; reflexivity).
  split; [exact H|].
  destruct (@Run_counts insertionSorter Demo.world Demo.config _ H)
    as (result & projects & Hget & _ & Htotal & _ & Hnew).
  { vm_compute. discriminate. }
  by exists result, projects.
Defined.

Lemma Run_total_bounded_witness :
  Syncer.exec (sorter := insertionSorter) Demo.languagesOf Demo.readmeOf
    Demo.secondFirst
    (Syncer.init (Mapper.FilterRepos GoStrings.asciiToLower
                    [Demo.repoA; Demo.forkRepo; Demo.repoB] "alberto-moreno-sa"))
    = Some Demo.fetchedAB /\
  (0 <= 1 <= 2)%Z.
Proof.
  assert (Hexec : Syncer.exec (sorter := insertionSorter) Demo.languagesOf
            Demo.readmeOf Demo.secondFirst
            (Syncer.init (Mapper.FilterRepos GoStrings.asciiToLower
                            [Demo.repoA; Demo.forkRepo; Demo.repoB]
                            "alberto-moreno-sa")) = Some Demo.fetchedAB)
    by (vm_compute; reflexivity).
  split; [exact Hexec|].
  exact (proj1 (@Run_total_bounded insertionSorter Demo.world Demo.config
                  [Demo.repoA; Demo.forkRepo; Demo.repoB] Demo.languagesOf
                  Demo.readmeOf Demo.secondFirst (Syncer.mkSyncStats 1 1 "success")
                  eq_refl Hexec eq_refl ltac:(vm_compute; reflexivity))).
Defined.

Lemma RunE_audit_witness :
  auditCalls (@RunE insertionSorter Demo.badOptionals true Demo.world) <> [] /\
  exit (@RunE insertionSorter Demo.badOptionals true Demo.world) = Some None /\
  exit (@RunE insertionSorter Demo.badOptionals true
          (withAudit Demo.world "" "t0" (inr "audit document unreachable"%string)
             Demo.createOk Demo.updateOk)) = Some None /\
  @RunE insertionSorter (fun _ => ""%string) true Demo.world =
    mkCommandRun (Some (Some "config: CONTENTFUL_SPACE_ID is required"%string)) None [].
Proof.
  assert (Hcalls : auditCalls (@RunE insertionSorter Demo.badOptionals true Demo.world) <> [])
    by (vm_compute; discriminate).
  pose proof (@RunE_audit insertionSorter Demo.badOptionals true Demo.world
                "" "t0" (inr "audit document unreachable"%string)
                Demo.createOk Demo.updateOk) as (_ & Haudit & Hexit & _).
  destruct (Haudit Hcalls) as [Hok _].
  split; [exact Hcalls|]. split; [exact Hok|]. split.
  - rewrite Hexit. exact Hok.
  - exact (proj1 (@RunE_audit insertionSorter (fun _ => ""%string) true Demo.world
                    "" "" (inl Demo.auditResult) Demo.createOk Demo.updateOk)
             _ eq_refl).
Defined.

End PipelineFacts.
